(** * cb_retrieve_av_logs: the retry supervisor and session orchestrator

    A shallow embedding of [FunctionComponent._cb_retrieve_av_logs_function]
    (functions/carbon_black/cb_retrieve_av_logs.py).  The Python generator
    is a program over a small monad that threads the local variables that
    survive a loop iteration ([sensor], [session], [timeouts], [results]) and
    the outside world, and that writes every [yield], every [log.info] and
    every call to Carbon Black or to Resilient into a trace.  The outside
    world (Carbon Black, the Resilient REST client, the clock) is a record of
    functions over an abstract world state. *)

From Stdlib Require Import ZArith List String Ascii Bool Lia DecimalString.
Import ListNotations.
Open Scope string_scope.
Open Scope list_scope.
Open Scope Z_scope.

(** String concatenation, Python's [+] on [str]. *)
Infix "+:+" := String.append (right associativity, at level 60).

(** ** Python strings

    The function is Python 2 ([err.message]): [upper] and [lower] map a
    string character by character and keep its length.  Characters are
    bytes, and the letters that change case are the ASCII ones. *)

Module PyStr.

Definition backslash : ascii := ascii_of_nat 92.
Definition slash : ascii := "/"%char.

Fixpoint map_string (f : ascii -> ascii) (s : string) : string :=
  match s with
  | EmptyString => EmptyString
  | String c s' => String (f c) (map_string f s')
  end.

Definition upper_ascii (c : ascii) : ascii :=
  let n := nat_of_ascii c in
  if ((97 <=? n)%nat && (n <=? 122)%nat)%bool then ascii_of_nat (n - 32) else c.

Definition lower_ascii (c : ascii) : ascii :=
  let n := nat_of_ascii c in
  if ((65 <=? n)%nat && (n <=? 90)%nat)%bool then ascii_of_nat (n + 32) else c.

(** [s.upper()] and [s.lower()] *)
Definition upper : string -> string := map_string upper_ascii.
Definition lower : string -> string := map_string lower_ascii.

(** [s[:n]] *)
Fixpoint slice_to (n : nat) (s : string) : string :=
  match n, s with
  | S n', String c s' => String c (slice_to n' s')
  | _, _ => EmptyString
  end.

(** [sub in s] *)
Fixpoint contains (sub s : string) : bool :=
  (prefix sub s
   || match s with
      | EmptyString => false
      | String _ s' => contains sub s'
      end)%bool.

(** [c in s], for one character *)
Fixpoint has_char (c : ascii) (s : string) : bool :=
  match s with
  | EmptyString => false
  | String d s' => (Ascii.eqb c d || has_char c s')%bool
  end.

(** [s.replace(a, b)], for one-character [a] and [b] *)
Definition replace (a b : ascii) : string -> string :=
  map_string (fun c => if Ascii.eqb c a then b else c).

(** [os.sep] and [os.path.basename] of the POSIX platform the integration
    server runs on: [p[p.rfind('/') + 1:]]. *)
Definition os_sep : ascii := slash.

Fixpoint basename (p : string) : string :=
  match p with
  | EmptyString => EmptyString
  | String c p' =>
      if has_char slash p' then basename p'
      else if Ascii.eqb c slash then p' else p
  end.

(** [str(n)] for an integer *)
Definition str (n : Z) : string := NilZero.string_of_int (Z.to_int n).

(** [x in l] for a list of strings *)
Definition mem (x : string) (l : list string) : bool :=
  existsb (String.eqb x) l.

(** Whether every character of [s] is an ASCII one.  On such a string the
    [upper] and [lower] of Python are the maps above, whatever the version
    of the interpreter and whether the string is a [str] or a [unicode]. *)
Fixpoint is_ascii (s : string) : bool :=
  match s with
  | EmptyString => true
  | String c s' => ((nat_of_ascii c <? 128)%nat && is_ascii s')%bool
  end.

End PyStr.

(** ** Data *)

(** A [Sensor] as the query returns it: the attributes the function reads. *)
Record Sensor := mkSensor {
  sensor_id : Z;
  sensor_hostname : string;
  sensor_status : string;
  restart_queued : bool
}.

Record Session := mkSession { session_id : Z }.

(** An entry of [session.list_directory]. *)
Record DirEntry := mkDirEntry {
  filename : string;
  attributes : list string
}.

(** The [results] dictionary: each of its two keys is present or not. *)
Record Results := mkResults {
  was_successful : option bool;
  result_hostname : option string
}.

(** [cbapi.errors.TimeoutError], and every other [Exception].  [Exception m]
    has the string [m] as its text [str(err)] and as its [err.message] (an
    exception whose [message] is false, [None] or [0], is read at line 108
    as one with the empty message).  [NoMessage text complaint] has the text
    [text] and a [message] that line 108 cannot use: the attribute is
    absent, or it is an object that is true and has no [lower], as the
    argument of a [requests.ConnectionError] is; reading and lowering it
    raises an [AttributeError] of the text [complaint]. *)
Inductive exn :=
| TimeoutError
| Exception (message : string)
| NoMessage (text : string) (complaint : string).

Inductive res (A : Type) :=
| Ok (a : A)
| Err (e : exn).
Arguments Ok {A} a.
Arguments Err {A} e.

(** What the function does that can be seen from outside, in order. *)
Inductive event :=
| StatusMessage (msg : string)
| FunctionResult (r : Results)
| FunctionError
| LogInfo (msg : string)
| Sleep (seconds : Z)
| Select (query : string)
| GetIncident (url : string)
| RequestSession (sensor : Z) (opened : option Z)
| ListDirectory (session : Z) (path : string)
| GetFile (session : Z) (path : string)
| Close (session : Z)
| RestartSensor (sensor : Z)
| PostAttachment (url : string) (entries : list (string * string))
                 (name : string) (posted : bool).

Definition MAX_TIMEOUTS : Z := 3.
Definition DAYS_UNTIL_TIMEOUT : Z := 3.

(** [datetime] values are seconds. *)
Definition timedelta_days (d : Z) : Z := d * 86400.
Definition timedelta_minutes (m : Z) : Z := m * 60.

(** [(hostname.upper())[:15]] *)
Definition normalize (h : string) : string :=
  PyStr.slice_to 15 (PyStr.upper h).

(** ** The outside world *)

Record Env (W : Type) := mkEnv {
  now : W -> Z * W;
  sleep : Z -> W -> W;
  select : string -> W -> res (list Sensor) * W;
  get_incident : string -> W -> res unit * W;
  request_session : Z -> W -> res Session * W;
  list_directory : Z -> string -> W -> res (list DirEntry) * W;
  get_file : Z -> string -> W -> res string * W;
  close : Z -> W -> res unit * W;
  restart_sensor : Z -> W -> res unit * W;
  post_attachment :
    string -> list (string * string) -> string -> W -> res unit * W
}.
Arguments now {W} _ _.
Arguments sleep {W} _ _ _.
Arguments select {W} _ _ _.
Arguments get_incident {W} _ _ _.
Arguments request_session {W} _ _ _.
Arguments list_directory {W} _ _ _ _.
Arguments get_file {W} _ _ _ _.
Arguments close {W} _ _ _.
Arguments restart_sensor {W} _ _ _.
Arguments post_attachment {W} _ _ _ _ _.

(** ** The monad *)

(** How a piece of the generator ends: it falls through with a value, an
    exception leaves it, a [return] ends the generator, or a polling loop
    used up its fuel. *)
Inductive outcome (A : Type) :=
| Normal (a : A)
| Raise (e : exn)
| Return
| Diverge.
Arguments Normal {A} a.
Arguments Raise {A} e.
Arguments Return {A}.
Arguments Diverge {A}.

Section Monad.

Variable W : Type.

(** The local variables that live across the iterations of the retry loop,
    and the world.  [session] is unbound until the first
    [request_session] returns. *)
Record State := mkState {
  world : W;
  sensor : Sensor;
  session : option Session;
  timeouts : Z;
  results : Results
}.

Definition set_world (w : W) (s : State) : State :=
  mkState w (sensor s) (session s) (timeouts s) (results s).
Definition set_sensor (x : Sensor) (s : State) : State :=
  mkState (world s) x (session s) (timeouts s) (results s).
Definition set_session (x : Session) (s : State) : State :=
  mkState (world s) (sensor s) (Some x) (timeouts s) (results s).
Definition set_timeouts (n : Z) (s : State) : State :=
  mkState (world s) (sensor s) (session s) n (results s).
Definition set_was_successful (b : bool) (s : State) : State :=
  mkState (world s) (sensor s) (session s) (timeouts s)
          (mkResults (Some b) (result_hostname (results s))).

Definition M (A : Type) : Type := State -> outcome A * State * list event.

Definition ret {A} (a : A) : M A := fun s => (Normal a, s, []).
Definition raise {A} (e : exn) : M A := fun s => (Raise e, s, []).
Definition return_ {A} : M A := fun s => (Return, s, []).
Definition diverge {A} : M A := fun s => (Diverge, s, []).

Definition bind {A B} (m : M A) (f : A -> M B) : M B :=
  fun s =>
    match m s with
    | (Normal a, s1, t1) =>
        let '(o, s2, t2) := f a s1 in (o, s2, t1 ++ t2)
    | (Raise e, s1, t1) => (Raise e, s1, t1)
    | (Return, s1, t1) => (Return, s1, t1)
    | (Diverge, s1, t1) => (Diverge, s1, t1)
    end.

(** [try: m / except ... as e: h e / else: k a].  The handlers and the
    [else] suite are outside the protected region. *)
Definition try_except_else {A B}
           (m : M A) (h : exn -> M B) (k : A -> M B) : M B :=
  fun s =>
    match m s with
    | (Normal a, s1, t1) =>
        let '(o, s2, t2) := k a s1 in (o, s2, t1 ++ t2)
    | (Raise e, s1, t1) =>
        let '(o, s2, t2) := h e s1 in (o, s2, t1 ++ t2)
    | (Return, s1, t1) => (Return, s1, t1)
    | (Diverge, s1, t1) => (Diverge, s1, t1)
    end.

Definition try_except {A} (m : M A) (h : exn -> M A) : M A :=
  try_except_else m h ret.

Definition emit (e : event) : M unit := fun s => (Normal tt, s, [e]).
Definition get : M State := fun s => (Normal s, s, []).
Definition modify (f : State -> State) : M unit :=
  fun s => (Normal tt, f s, []).

(** A call to the world: the event is written, then the answer comes. *)
Definition call {A} (e : event) (f : W -> res A * W) : M A :=
  fun s =>
    let '(r, w) := f (world s) in
    match r with
    | Ok a => (Normal a, set_world w s, [e])
    | Err x => (Raise x, set_world w s, [e])
    end.

End Monad.

Arguments mkState {W} _ _ _ _ _.
Arguments world {W} _.
Arguments sensor {W} _.
Arguments session {W} _.
Arguments timeouts {W} _.
Arguments results {W} _.
Arguments set_world {W} _ _.
Arguments set_sensor {W} _ _.
Arguments set_session {W} _ _.
Arguments set_timeouts {W} _ _.
Arguments set_was_successful {W} _ _.
Arguments ret {W A} _ _.
Arguments raise {W A} _ _.
Arguments return_ {W A} _.
Arguments diverge {W A} _.
Arguments bind {W A B} _ _ _.
Arguments try_except_else {W A B} _ _ _ _.
Arguments try_except {W A} _ _ _.
Arguments emit {W} _ _.
Arguments get {W} _.
Arguments modify {W} _ _.
Arguments call {W A} _ _ _.

Notation "x <- m ;; k" := (bind m (fun x => k))
  (at level 61, m at next level, right associativity).
Notation "m ;; k" := (bind m (fun _ => k))
  (at level 61, right associativity).

(** ** The function *)

(** The state at line 69. *)
Definition initial_state {W} (w : W) (x : Sensor) (hostname : string)
  : State W :=
  mkState w x None 0 (mkResults None (Some (PyStr.upper hostname))).

(** The two candidate log locations. *)
Definition antimalware_support : string :=
  "C:\ProgramData\Microsoft\Microsoft Antimalware\Support".
Definition defender_support : string :=
  "C:\ProgramData\Microsoft\Windows Defender\Support".

Definition bs : string := String PyStr.backslash EmptyString.

(** [err.message], as line 108 reads and lowers it: the string, or the
    [AttributeError] that this raises.  The library's timeout error is taken
    to carry the empty message. *)
Definition message_of (e : exn) : res string :=
  match e with
  | TimeoutError => Ok EmptyString
  | Exception m => Ok m
  | NoMessage _ complaint => Err (Exception complaint)
  end.

(** [r'{0}-{1}.txt'.format(sensor.hostname,
      os.path.basename(each_file.replace('\\', os.sep)))] *)
Definition entry_name (sensor_host each_file : string) : string :=
  sensor_host +:+ "-"
  +:+ PyStr.basename (PyStr.replace PyStr.backslash PyStr.os_sep each_file)
  +:+ ".txt".

(** ['{0}-AV_Logs.zip'.format(sensor.hostname)] *)
Definition attachment_name (sensor_host : string) : string :=
  sensor_host +:+ "-AV_Logs.zip".

(** [[av_log_path + '\\' + each_file['filename'] for each_file in listing
      if 'DIRECTORY' not in each_file['attributes']]] *)
Definition log_files (av_log_path : string) (listing : list DirEntry)
  : list string :=
  map (fun each_file => av_log_path +:+ bs +:+ filename each_file)
      (filter (fun each_file =>
                 negb (PyStr.mem "DIRECTORY" (attributes each_file)))
              listing).

Inductive ctl := Continue | Break.

Section Program.

Variable W : Type.
Variable env : Env W.

Definition call_now : M W Z :=
  fun s => let '(t, w) := now env (world s) in (Normal t, set_world w s, []).

Definition call_sleep (n : Z) : M W unit :=
  fun s => (Normal tt, set_world (sleep env n (world s)) s, [Sleep n]).

Definition call_request_session (sid : Z) : M W Session :=
  fun s =>
    let '(r, w) := request_session env sid (world s) in
    match r with
    | Ok x =>
        (Normal x, set_world w s, [RequestSession sid (Some (session_id x))])
    | Err e => (Raise e, set_world w s, [RequestSession sid None])
    end.

Definition call_post_attachment
           (url : string) (zip : list (string * string)) (name : string)
  : M W unit :=
  fun s =>
    let '(r, w) := post_attachment env url zip name (world s) in
    match r with
    | Ok _ => (Normal tt, set_world w s, [PostAttachment url zip name true])
    | Err e => (Raise e, set_world w s, [PostAttachment url zip name false])
    end.

(** [try: session.close() / except: pass]; an unbound [session] is a
    [NameError], which the bare [except] swallows. *)
Definition close_session : M W unit :=
  s <- get ;;
  match session s with
  | None => ret tt
  | Some x =>
      try_except (call (Close (session_id x)) (close env (session_id x)))
                 (fun _ => ret tt)
  end.

Section Invocation.

(** The parameters, [hostname] as line 57 left it, the deadline of line
    56, and the fuel of the polling loops. *)
Variable incident_id : Z.
Variable hostname : string.
Variable days_later_timeout_length : Z.
Variable fuel : nat.

Definition query : string := "hostname:" +:+ hostname.

(** [(cb.select(Sensor).where('hostname:' + hostname))[0]] *)
Definition select_first : M W Sensor :=
  l <- call (Select query) (select env query) ;;
  match l with
  | x :: _ => ret x
  | [] => raise (Exception "list index out of range")
  end.

Definition refresh_sensor : M W unit :=
  x <- select_first ;; modify (set_sensor x).

(** Lines 78-81 and 100-103. *)
Fixpoint wait_restart (n : nat) (three_minutes_passed t_now : Z) : M W Z :=
  s <- get ;;
  if (restart_queued (sensor s) && (three_minutes_passed >=? t_now))%bool
  then
    match n with
    | O => diverge
    | S n' =>
        call_sleep 3 ;;
        t <- call_now ;;
        refresh_sensor ;;
        wait_restart n' three_minutes_passed t
    end
  else ret t_now.

Definition online (x : Sensor) : bool :=
  String.eqb (sensor_status x) "Online".

(** Lines 86-89. *)
Fixpoint wait_online (n : nat) (t_now : Z) : M W Z :=
  s <- get ;;
  if (negb (online (sensor s)) && (days_later_timeout_length >=? t_now))%bool
  then
    match n with
    | O => diverge
    | S n' =>
        call_sleep 3 ;;
        t <- call_now ;;
        refresh_sensor ;;
        wait_online n' t
    end
  else ret t_now.

Definition yield_result : M W unit :=
  s <- get ;; emit (FunctionResult (results s)).

(** Lines 74-103: wait for the sensor. *)
Definition availability : M W unit :=
  t_now <- call_now ;;
  t <- call_now ;;
  t_now <- wait_restart fuel (t + timedelta_minutes 3) t_now ;;
  s <- get ;;
  (if online (sensor s) then ret tt
   else emit (StatusMessage ("[WARNING] Hostname: " +:+ hostname
                +:+ " is offline. Will attempt for 3 days..."))) ;;
  t_now <- wait_online fuel t_now ;;
  s <- get ;;
  (if online (sensor s) then ret tt
   else
     emit (StatusMessage ("[FATAL ERROR] Hostname: " +:+ hostname
             +:+ " is still offline!")) ;;
     modify (set_was_successful false) ;;
     yield_result ;;
     return_) ;;
  t <- call_now ;;
  wait_restart fuel (t + timedelta_minutes 3) t_now ;;
  ret tt.

Definition incident_url : string :=
  "/incidents/" +:+ PyStr.str incident_id
  +:+ "?text_content_output_format=always_text&handle_format=names".

(** Lines 106-114.  The condition of line 108 is evaluated in the handler:
    an [AttributeError] that it raises leaves the handler, for the [except]
    clauses of the iteration (lines 162 and 177). *)
Definition verify_incident : M W unit :=
  try_except
    (call (GetIncident incident_url) (get_incident env incident_url))
    (fun err =>
       match message_of err with
       | Ok message =>
           (if (negb (String.eqb message EmptyString)
                && PyStr.contains "not found" (PyStr.lower message))%bool
            then
              emit (LogInfo ("[FATAL ERROR] Incident ID "
                      +:+ PyStr.str incident_id +:+ " no longer exists.")) ;;
              emit (LogInfo "[FAILURE] Fatal error caused exit!")
            else
              emit (LogInfo ("[FATAL ERROR] Incident ID "
                      +:+ PyStr.str incident_id
                      +:+ " could not be reached, Resilient instance may be down.")) ;;
              emit (LogInfo "[FAILURE] Fatal error caused exit!")) ;;
           return_
       | Err attribute_error => raise attribute_error
       end).

(** Lines 117-119. *)
Definition open_session : M W Session :=
  s <- get ;;
  emit (StatusMessage ("[INFO] Establishing session to CB Sensor #"
          +:+ PyStr.str (sensor_id (sensor s))
          +:+ " (" +:+ sensor_hostname (sensor s) +:+ ")")) ;;
  x <- call_request_session (sensor_id (sensor s)) ;;
  modify (set_session x) ;;
  emit (StatusMessage ("[SUCCESS] Connected on Session #"
          +:+ PyStr.str (session_id x) +:+ " to CB Sensor #"
          +:+ PyStr.str (sensor_id (sensor s))
          +:+ " (" +:+ sensor_hostname (sensor s) +:+ ")")) ;;
  ret x.

(** Lines 123-128 and 130-135: one candidate location. *)
Definition probe (x : Session) (av_log_path : string)
           (files_to_grab : list string) : M W (list string) :=
  try_except
    (call (ListDirectory (session_id x) av_log_path)
          (list_directory env (session_id x) av_log_path) ;;
     listing <- call (ListDirectory (session_id x)
                                    (av_log_path +:+ bs +:+ "mplog*"))
                     (list_directory env (session_id x)
                                     (av_log_path +:+ bs +:+ "mplog*")) ;;
     ret (files_to_grab ++ log_files av_log_path listing))
    (fun e =>
       match e with
       | TimeoutError => raise TimeoutError
       | Exception _ | NoMessage _ _ => ret files_to_grab
       end).

(** Lines 121-135. *)
Definition discover (x : Session) : M W (list string) :=
  files_to_grab <- probe x antimalware_support [] ;;
  probe x defender_support files_to_grab.

(** Lines 146-155: the archive, as the list of its entries, each a name and
    the content of the remote file.  The temporary files of lines 143-160
    are local to the function and are left out. *)
Fixpoint package (x : Session) (files : list string)
         (zip_file : list (string * string)) : M W (list (string * string)) :=
  match files with
  | [] => ret zip_file
  | each_file :: rest =>
      s <- get ;;
      content <- call (GetFile (session_id x) each_file)
                      (get_file env (session_id x) each_file) ;;
      emit (LogInfo ("[INFO] Retrieved: " +:+ each_file)) ;;
      package x rest
              (zip_file
               ++ [(entry_name (sensor_hostname (sensor s)) each_file,
                    content)])
  end.

(** Lines 156-157. *)
Definition upload (zip_file : list (string * string)) : M W unit :=
  s <- get ;;
  call_post_attachment
    ("/incidents/" +:+ PyStr.str incident_id +:+ "/attachments")
    zip_file (attachment_name (sensor_hostname (sensor s))) ;;
  emit (StatusMessage
          "[SUCCESS] Posted ZIP file of AV logs to the incident as an attachment!").

(** Lines 137-141. *)
Definition no_logs {A} : M W A :=
  emit (StatusMessage
          "[FATAL ERROR] Could not find a valid AV log path with logs on Sensor!") ;;
  modify (set_was_successful false) ;;
  yield_result ;;
  return_.

(** Lines 74-119: the sensor is waited for, the incident looked up and
    the session opened. *)
Definition prepare : M W Session :=
  availability ;; verify_incident ;; open_session.

(** Lines 74-155: up to the packaged archive. *)
Definition collect : M W (list (string * string)) :=
  x <- prepare ;;
  files_to_grab <- discover x ;;
  match files_to_grab with
  | [] => no_logs
  | _ :: _ => package x files_to_grab []
  end.

(** Lines 74-160: the body of the [try] of one iteration. *)
Definition attempt : M W unit :=
  zip_file <- collect ;; upload zip_file.

(** Lines 163-168: the timeout is counted and announced. *)
Definition note_timeout : M W unit :=
  modify (fun s => set_timeouts (timeouts s + 1) s) ;;
  s <- get ;;
  if timeouts s <=? MAX_TIMEOUTS
  then emit (StatusMessage
               ("[ERROR] TimeoutError was encountered. Reattempting... ("
                +:+ PyStr.str (timeouts s) +:+ "/3)"))
  else
    emit (StatusMessage
            "[FATAL ERROR] TimeoutError was encountered. The maximum number of retries was reached. Aborting!") ;;
    emit (StatusMessage "[FAILURE] Fatal error caused exit!") ;;
    modify (set_was_successful false).

(** Lines 169-174: the session is closed and the sensor restarted. *)
Definition recover : M W unit :=
  close_session ;;
  refresh_sensor ;;
  s <- get ;;
  call (RestartSensor (sensor_id (sensor s)))
       (restart_sensor env (sensor_id (sensor s))) ;;
  call_sleep 30 ;;
  refresh_sensor.

(** Lines 162-175: the handler of [TimeoutError], up to its
    [continue]. *)
Definition on_timeout : M W unit :=
  note_timeout ;; recover.

(** Lines 178-180. *)
Definition on_error (err : string) : M W unit :=
  emit (StatusMessage ("[FATAL ERROR] Encountered: " +:+ err)) ;;
  emit (StatusMessage "[FAILURE] Fatal error caused exit!") ;;
  modify (set_was_successful false).

(** Lines 185-188. *)
Definition finish : M W unit :=
  close_session ;;
  s <- get ;;
  emit (StatusMessage ("[INFO] Session has been closed to CB Sensor #"
          +:+ PyStr.str (sensor_id (sensor s))
          +:+ "(" +:+ sensor_hostname (sensor s) +:+ ")")).

(** Lines 72-188: one iteration of the [while], up to its [continue] or
    [break]. *)
Definition iteration : M W ctl :=
  try_except_else attempt
    (fun e =>
       match e with
       | TimeoutError => on_timeout ;; ret Continue
       | Exception err | NoMessage err _ =>
           on_error err ;; finish ;; ret Break
       end)
    (fun _ => modify (set_was_successful true) ;; finish ;; ret Break).

(** Line 70: [while timeouts <= MAX_TIMEOUTS], with a budget of
    iterations. *)
Fixpoint retry_loop (budget : nat) : M W unit :=
  s <- get ;;
  if timeouts s <=? MAX_TIMEOUTS then
    match budget with
    | O => diverge
    | S budget' =>
        c <- iteration ;;
        match c with
        | Continue => retry_loop budget'
        | Break => ret tt
        end
    end
  else ret tt.

End Invocation.

(** More iterations than the loop can make from [timeouts = 0]. *)
Definition retry_budget : nat := Z.to_nat (MAX_TIMEOUTS + 2).

(** Lines 47-193.  The generator, run to its end from the world [w]: whether
    it ended ([false]: a polling loop used up [fuel]), the world it left,
    and what it did. *)
Definition main (fuel : nat) (incident_id : Z) (hostname_arg : string)
           (w : W) : bool * W * list event :=
  let '(t, w1) := now env w in
  let days_later_timeout_length := t + timedelta_days DAYS_UNTIL_TIMEOUT in
  let hostname := normalize hostname_arg in
  let '(r, w2) := select env (query hostname) w1 in
  match r with
  | Err _ => (true, w2, [Select (query hostname); FunctionError])
  | Ok [] =>
      (true, w2,
       [Select (query hostname);
        StatusMessage ("[FATAL ERROR] CB could not find hostname: " +:+ hostname);
        FunctionResult (mkResults (Some false) None)])
  | Ok (x :: _) =>
      let s0 := initial_state w2 x hostname in
      match (retry_loop incident_id hostname days_later_timeout_length fuel
                        retry_budget ;;
             yield_result) s0 with
      | (Normal _, s, tr) => (true, world s, Select (query hostname) :: tr)
      | (Return, s, tr) => (true, world s, Select (query hostname) :: tr)
      | (Raise _, s, tr) =>
          (true, world s, Select (query hostname) :: tr ++ [FunctionError])
      | (Diverge, s, tr) => (false, world s, Select (query hostname) :: tr)
      end
  end.

End Program.

Arguments call_now {W} env _.
Arguments call_sleep {W} env n _.
Arguments call_request_session {W} env sid _.
Arguments call_post_attachment {W} env url zip name _.
Arguments close_session {W} env _.
Arguments select_first {W} env hostname _.
Arguments refresh_sensor {W} env hostname _.
Arguments wait_restart {W} env hostname n three_minutes_passed t_now _.
Arguments wait_online {W} env hostname days_later_timeout_length n t_now _.
Arguments yield_result {W} _.
Arguments availability {W} env hostname days_later_timeout_length fuel _.
Arguments verify_incident {W} env incident_id _.
Arguments open_session {W} env _.
Arguments probe {W} env x av_log_path files_to_grab _.
Arguments discover {W} env x _.
Arguments package {W} env x files zip_file _.
Arguments upload {W} env incident_id zip_file _.
Arguments no_logs {W A} _.
Arguments prepare {W} env incident_id hostname days_later_timeout_length fuel _.
Arguments collect {W} env incident_id hostname days_later_timeout_length fuel _.
Arguments attempt {W} env incident_id hostname days_later_timeout_length fuel _.
Arguments note_timeout {W} _.
Arguments recover {W} env hostname _.
Arguments on_timeout {W} env hostname _.
Arguments on_error {W} err _.
Arguments finish {W} env _.
Arguments iteration {W} env incident_id hostname days_later_timeout_length fuel _.
Arguments retry_loop {W} env incident_id hostname days_later_timeout_length fuel budget _.
Arguments main {W} env fuel incident_id hostname_arg w.

(** ** A scripted world

    Each operation answers from its own queue; the last answer of a queue is
    repeated for ever.  The clock advances by what is slept. *)

Module Script.

Record World := mkWorld {
  clock : Z;
  sensors : list (res (list Sensor));
  incidents : list (res unit);
  sessions : list (res Session);
  listings : list (res (list DirEntry));
  contents : list (res string);
  closes : list (res unit);
  restarts : list (res unit);
  posts : list (res unit)
}.

Definition pop {A} (d : A) (q : list A) : A * list A :=
  match q with
  | [] => (d, [])
  | [a] => (a, [a])
  | a :: q' => (a, q')
  end.

Definition env : Env World :=
  mkEnv World
    (fun w => (clock w, w))
    (fun n w => mkWorld (clock w + n) (sensors w) (incidents w) (sessions w)
                        (listings w) (contents w) (closes w) (restarts w)
                        (posts w))
    (fun _ w => let '(r, q) := pop (Ok []) (sensors w) in
                (r, mkWorld (clock w) q (incidents w) (sessions w)
                            (listings w) (contents w) (closes w)
                            (restarts w) (posts w)))
    (fun _ w => let '(r, q) := pop (Ok tt) (incidents w) in
                (r, mkWorld (clock w) (sensors w) q (sessions w)
                            (listings w) (contents w) (closes w)
                            (restarts w) (posts w)))
    (fun _ w => let '(r, q) := pop (Err TimeoutError) (sessions w) in
                (r, mkWorld (clock w) (sensors w) (incidents w) q
                            (listings w) (contents w) (closes w)
                            (restarts w) (posts w)))
    (fun _ _ w => let '(r, q) := pop (Ok []) (listings w) in
                  (r, mkWorld (clock w) (sensors w) (incidents w)
                              (sessions w) q (contents w) (closes w)
                              (restarts w) (posts w)))
    (fun _ _ w => let '(r, q) := pop (Ok EmptyString) (contents w) in
                  (r, mkWorld (clock w) (sensors w) (incidents w)
                              (sessions w) (listings w) q (closes w)
                              (restarts w) (posts w)))
    (fun _ w => let '(r, q) := pop (Ok tt) (closes w) in
                (r, mkWorld (clock w) (sensors w) (incidents w)
                            (sessions w) (listings w) (contents w) q
                            (restarts w) (posts w)))
    (fun _ w => let '(r, q) := pop (Ok tt) (restarts w) in
                (r, mkWorld (clock w) (sensors w) (incidents w)
                            (sessions w) (listings w) (contents w)
                            (closes w) q (posts w)))
    (fun _ _ _ w => let '(r, q) := pop (Ok tt) (posts w) in
                    (r, mkWorld (clock w) (sensors w) (incidents w)
                                (sessions w) (listings w) (contents w)
                                (closes w) (restarts w) q)).

Definition online_sensor : Sensor := mkSensor 7 "HOST1" "Online" false.
Definition offline_sensor : Sensor := mkSensor 7 "HOST1" "Offline" false.

(** No sensor has the hostname. *)
Definition no_agent : World := mkWorld 0 [] [] [] [] [] [] [] [].

(** The sensor is online and every [request_session] times out. *)
Definition always_timeout : World :=
  mkWorld 0 [Ok [online_sensor]] [] [Err TimeoutError] [] [] [] [] [].

(** The sensor is offline at first and online at the next look; the
    incident is gone. *)
Definition late_and_gone : World :=
  mkWorld 0 [Ok [offline_sensor]; Ok [online_sensor]]
          [Err (Exception "Incident Not Found")] [] [] [] [] [] [].

(** The sensor is online and Resilient cannot be reached: the lookup of the
    incident raises a connection error, whose [message] is the error of the
    transport and no string. *)
Definition store_down : World :=
  mkWorld 0 [Ok [online_sensor]]
          [Err (NoMessage
                  "HTTPSConnectionPool(host='resilient', port=443): Max retries exceeded"
                  "'MaxRetryError' object has no attribute 'lower'")]
          [] [] [] [] [] [].

(** The session opens and both locations are empty. *)
Definition no_logs_world : World :=
  mkWorld 0 [Ok [online_sensor]] [] [Ok (mkSession 11)] [] [] [] [] [].

(** The session opens once, the first listing times out, and no later
    session opens. *)
Definition stale_session : World :=
  mkWorld 0 [Ok [online_sensor]] []
          [Ok (mkSession 11); Err TimeoutError] [Err TimeoutError]
          [] [] [] [].

(** One log file in each location. *)
Definition one_log : World :=
  mkWorld 0 [Ok [online_sensor]] [] [Ok (mkSession 11)]
          [Ok [mkDirEntry "MPLog-1.log" ["ARCHIVE"]]] [Ok "scan"]
          [] [] [].

(** The same, with the sensor's host name as the host reports it. *)
Definition one_log_lowercase : World :=
  mkWorld 0 [Ok [mkSensor 7 "host1" "Online" false]] []
          [Ok (mkSession 11)]
          [Ok [mkDirEntry "MPLog-1.log" ["ARCHIVE"]]] [Ok "scan"]
          [] [] [].

(** What [main] did, without the world it left. *)
Definition run (fuel : nat) (incident_id : Z) (hostname_arg : string)
           (w : World) : bool * list event :=
  let '(b, _, tr) := main env fuel incident_id hostname_arg w in
  (b, tr).

End Script.

(** ** Reading a trace *)

Definition count (f : event -> bool) (tr : list event) : nat :=
  List.length (filter f tr).

Definition is_status (e : event) : bool :=
  match e with StatusMessage _ => true | _ => false end.
Definition is_restart (e : event) : bool :=
  match e with RestartSensor _ => true | _ => false end.
Definition is_request (e : event) : bool :=
  match e with RequestSession _ _ => true | _ => false end.
Definition is_select (e : event) : bool :=
  match e with Select _ => true | _ => false end.
Definition is_close (sid : Z) (e : event) : bool :=
  match e with Close x => Z.eqb x sid | _ => false end.
Definition is_opened (sid : Z) (e : event) : bool :=
  match e with RequestSession _ (Some x) => Z.eqb x sid | _ => false end.

(** The [FunctionResult]s of a trace, and the names of the attachments that
    were posted. *)
Definition result_of (e : event) : list Results :=
  match e with FunctionResult r => [r] | _ => [] end.
Definition posted_of (e : event) : list string :=
  match e with PostAttachment _ _ n true => [n] | _ => [] end.
Definition emitted_results : list event -> list Results := flat_map result_of.
Definition posted_names : list event -> list string := flat_map posted_of.

(** The names of the entries of the archives that were posted. *)
Definition posted_entries (tr : list event) : list string :=
  flat_map (fun e => match e with
                     | PostAttachment _ z _ true => map fst z
                     | _ => []
                     end) tr.

Definition is_log (e : event) : bool :=
  match e with LogInfo _ => true | _ => false end.

(** The event names the host [h], where it names one: a query of the sensor,
    and a result with a hostname entry. *)
Definition carries_hostname (h : string) (e : event) : Prop :=
  match e with
  | Select q => q = "hostname:" +:+ h
  | FunctionResult r => forall x, result_hostname r = Some x -> x = h
  | _ => True
  end.

(** The events of the wait, of the discovery and of the packaging: everything
    an iteration does before it posts the attachment, apart from a final
    [FunctionResult]. *)
Definition collect_event (q : string) (e : event) : bool :=
  match e with
  | StatusMessage _ | LogInfo _ | Sleep _ | GetIncident _
  | RequestSession _ _ | ListDirectory _ _ | GetFile _ _ => true
  | Select q' => String.eqb q' q
  | _ => false
  end.

(** The events of an iteration that an exception ends. *)
Definition attempt_event (q : string) (e : event) : bool :=
  match e with
  | PostAttachment _ _ _ false => true
  | _ => collect_event q e
  end.

(** The events of the handler of a timeout, and of the last lines of an
    iteration. *)
Definition recovery_event (q : string) (e : event) : bool :=
  match e with
  | StatusMessage _ | Sleep _ | Close _ | RestartSensor _ => true
  | Select q' => String.eqb q' q
  | _ => false
  end.

Section Supervision.

Variable W : Type.
Variable env : Env W.
Variable incident_id : Z.
Variable hostname : string.
Variable days_later_timeout_length : Z.
Variable fuel : nat.

(** [timeouts_in_a_row n s tr s']: from the state [s] at the head of the
    loop, [n] iterations in a row end in a [TimeoutError] that the handler
    gets through; they write [tr] and leave [s']. *)
Inductive timeouts_in_a_row : nat -> State W -> list event -> State W -> Prop :=
| row_O s : timeouts_in_a_row O s [] s
| row_S n s s1 t1 s2 t2 s3 t3 :
    timeouts s <= MAX_TIMEOUTS ->
    attempt env incident_id hostname days_later_timeout_length fuel s
    = (Raise TimeoutError, s1, t1) ->
    on_timeout env hostname s1 = (Normal tt, s2, t2) ->
    timeouts_in_a_row n s2 t3 s3 ->
    timeouts_in_a_row (S n) s (t1 ++ t2 ++ t3) s3.

(** The same, computed. *)
Fixpoint follow_timeouts (n : nat) (s : State W)
  : option (list event * State W) :=
  match n with
  | O => Some ([], s)
  | S n' =>
      if timeouts s <=? MAX_TIMEOUTS then
        match attempt env incident_id hostname days_later_timeout_length
                      fuel s with
        | (Raise TimeoutError, s1, t1) =>
            match on_timeout env hostname s1 with
            | (Normal _, s2, t2) =>
                match follow_timeouts n' s2 with
                | Some (t3, s3) => Some (t1 ++ t2 ++ t3, s3)
                | None => None
                end
            | _ => None
            end
        | _ => None
        end
      else None
  end.

End Supervision.

Arguments timeouts_in_a_row {W} env incident_id hostname
          days_later_timeout_length fuel _ _ _ _.
Arguments follow_timeouts {W} env incident_id hostname
          days_later_timeout_length fuel n s.

(** ** More ways to read a trace *)

Definition is_error (e : event) : bool :=
  match e with FunctionError => true | _ => false end.
Definition is_result (e : event) : bool :=
  match e with FunctionResult _ => true | _ => false end.
Definition is_posted (e : event) : bool :=
  match e with PostAttachment _ _ _ true => true | _ => false end.
Definition is_sleep (e : event) : bool :=
  match e with Sleep _ => true | _ => false end.
Definition is_incident (e : event) : bool :=
  match e with GetIncident _ => true | _ => false end.

(** The last word of an invocation: a result or an error. *)
Definition is_terminal (e : event) : bool := (is_result e || is_error e)%bool.

(** The remote files that were asked for, in order. *)
Definition fetched : list event -> list string :=
  flat_map (fun e => match e with GetFile _ p => [p] | _ => [] end).

(** [returns m]: the block [m] emits a result only as the last thing before a
    [return], and then one with [was_successful = False]; a [return] without
    a result is the quiet one. *)
Definition returns {W A} (m : M W A) : Prop :=
  forall s,
    match m s with
    | (Return, s', t) =>
        emitted_results t = []
        \/ exists t0,
            t = t0 ++ [FunctionResult (results s')]
            /\ emitted_results t0 = []
            /\ was_successful (results s') = Some false
    | (_, _, t) => emitted_results t = []
    end.

(** [at_most f n m]: the block [m] writes at most [n] events of [f]. *)
Definition at_most {W A} (f : event -> bool) (n : nat) (m : M W A) : Prop :=
  forall s, (count f (snd (m s)) <= n)%nat.

(** A clock of the world that the function can rely on: [now] reads it, time
    does not run backwards while the sensor is looked up, and a [sleep] lasts
    at least as long as asked. *)
Definition ticking {W} (env : Env W) (clock : W -> Z) : Prop :=
  (forall w, clock w <= fst (now env w)
             /\ fst (now env w) <= clock (snd (now env w)))
  /\ (forall n w, clock w + n <= clock (sleep env n w))
  /\ (forall q w, clock w <= clock (snd (select env q w))).

(** [never_returns m]: no [return] statement ends the block [m]. *)
Definition never_returns {W A} (m : M W A) : Prop :=
  forall s, fst (fst (m s)) <> Return.

(** A sensor that stays queued for a restart. *)
Definition queued_sensor : Sensor := mkSensor 7 "HOST1" "Online" true.
Definition queued_world : Script.World :=
  Script.mkWorld 0 [Ok [queued_sensor]] [] [] [] [] [] [] [].

(** A sensor that stays offline. *)
Definition offline_world : Script.World :=
  Script.mkWorld 0 [Ok [Script.offline_sensor]] [] [] [] [] [] [] [].

(** The scripted world with a clock on which a second of sleep lasts a
    day. *)
Definition long_sleep_env : Env Script.World :=
  mkEnv Script.World
        (now Script.env)
        (fun n w => sleep Script.env (n * 86400) w)
        (select Script.env) (get_incident Script.env)
        (request_session Script.env) (list_directory Script.env)
        (get_file Script.env) (close Script.env)
        (restart_sensor Script.env) (post_attachment Script.env).

(** One log file that cannot be read. *)
Definition unreadable_log : Script.World :=
  Script.mkWorld 0 [Ok [Script.online_sensor]] [] [Ok (mkSession 11)]
                 [Ok [mkDirEntry "MPLog-1.log" ["ARCHIVE"]]]
                 [Err (Exception "Access is denied")] [] [] [].

(** The sensor is found once and never again, and no session opens. *)
Definition vanishing_sensor : Script.World :=
  Script.mkWorld 0 [Ok [Script.online_sensor]; Ok []] [] [] [] [] [] [] [].

(** ** What a block keeps *)

(** [keeps I P R m]: run from a state of [I], the block [m] ends in a state
    of [I], writes only events of [R], and only events of [P] unless it ends
    the generator with a [return]. *)
Definition keeps {W} (I : State W -> Prop) (P R : event -> Prop)
           {A} (m : M W A) : Prop :=
  forall s, I s ->
    match m s with
    | (o, s', t) => I s' /\ Forall R t /\ (o <> Return -> Forall P t)
    end.

(** What an iteration leaves alone. *)
Definition same_locals {W} (s s' : State W) : Prop :=
  timeouts s' = timeouts s
  /\ result_hostname (results s') = result_hostname (results s).

(** ** Strings *)

Module PyStrFacts.
Import PyStr.

Lemma slice_to_map f n s :
  slice_to n (map_string f s) = map_string f (slice_to n s).
Proof.
  revert s; induction n as [|n IH]; intros [|c s]; simpl; try reflexivity.
  now rewrite IH.
Qed.

Lemma upper_ascii_idem c : upper_ascii (upper_ascii c) = upper_ascii c.
Proof.
  destruct c as [[] [] [] [] [] [] [] []]; reflexivity.
Qed.

Lemma upper_idem s : upper (upper s) = upper s.
Proof.
  induction s as [|c s IH]; simpl; [reflexivity|].
  unfold upper in *; simpl. now rewrite upper_ascii_idem, IH.
Qed.

Lemma slice_to_length n s :
  (n <= String.length s)%nat -> String.length (slice_to n s) = n.
Proof.
  revert s; induction n as [|n IH]; intros [|c s] H; simpl in *;
    try reflexivity; try lia.
  rewrite IH; [reflexivity | lia].
Qed.

Lemma map_string_length f s :
  String.length (map_string f s) = String.length s.
Proof. induction s; simpl; congruence. Qed.

Lemma map_string_app f a b :
  map_string f (a +:+ b) = map_string f a +:+ map_string f b.
Proof. induction a; simpl; congruence. Qed.

Lemma map_string_id f s :
  (forall c, has_char c s = true -> f c = c) -> map_string f s = s.
Proof.
  induction s as [|c s IH]; simpl; intros H; [reflexivity|].
  assert (Hc : f c = c) by (apply H; now rewrite Ascii.eqb_refl).
  rewrite Hc, IH; [reflexivity|].
  intros d Hd. apply H. rewrite Hd. apply orb_true_r.
Qed.

Lemma has_char_app c a b :
  has_char c (a +:+ b) = (has_char c a || has_char c b)%bool.
Proof.
  induction a as [|d a IH]; simpl; [reflexivity|].
  now rewrite IH, orb_assoc.
Qed.

Lemma basename_after_slash a b :
  has_char slash b = false -> basename (a +:+ String slash b) = b.
Proof.
  intros Hb. induction a as [|c a IH].
  - cbn [append basename]. now rewrite Hb, Ascii.eqb_refl.
  - assert (H : has_char slash (a +:+ String slash b) = true).
    { rewrite has_char_app. cbn [has_char].
      rewrite Ascii.eqb_refl. apply orb_true_r. }
    cbn [append basename]. rewrite H. exact IH.
Qed.

End PyStrFacts.

(** ** Reasoning about the monad *)

Ltac short_circuit P1 :=
  cbn; split; [assumption|split; [assumption|]];
  let Hne := fresh "Hne" in
  intros Hne; first [apply P1; discriminate | exfalso; apply Hne; reflexivity].

Section Keeps.

Variable W : Type.

Variable I : State W -> Prop.
Variables P R : event -> Prop.
Hypothesis P_R : forall e, P e -> R e.
Hypothesis I_world : forall w s, I s -> I (set_world w s).

Lemma keeps_ret {A} (a : A) : keeps I P R (ret a).
Proof. intros s Hs; cbn; auto. Qed.

Lemma keeps_raise {A} e : keeps I P R (@raise W A e).
Proof. intros s Hs; cbn; auto. Qed.

Lemma keeps_return {A} : keeps I P R (@return_ W A).
Proof. intros s Hs; cbn; auto. Qed.

Lemma keeps_diverge {A} : keeps I P R (@diverge W A).
Proof. intros s Hs; cbn; auto. Qed.

Lemma keeps_emit e : P e -> keeps I P R (emit e).
Proof. intros He s Hs; cbn; auto. Qed.

Lemma keeps_modify f :
  (forall s, I s -> I (f s)) -> keeps I P R (modify f).
Proof. intros Hf s Hs; cbn; auto. Qed.

Lemma keeps_call {A} e (f : W -> res A * W) : P e -> keeps I P R (call e f).
Proof.
  intros He s Hs; unfold call.
  destruct (f (world s)) as [[a|x] w]; cbn; auto.
Qed.

Lemma keeps_bind {A B} (m : M W A) (f : A -> M W B) :
  keeps I P R m -> (forall a, keeps I P R (f a)) -> keeps I P R (bind m f).
Proof.
  intros Hm Hf s Hs. unfold bind.
  specialize (Hm s Hs). destruct (m s) as [[o s1] t1].
  destruct Hm as (I1 & R1 & P1).
  destruct o as [a| | |]; try (short_circuit P1).
  specialize (Hf a s1 I1). destruct (f a s1) as [[o2 s2] t2].
  destruct Hf as (I2 & R2 & P2).
  split; [assumption|split].
  - apply Forall_app; auto.
  - intros Hne. apply Forall_app; split; [apply P1; discriminate | auto].
Qed.

Lemma keeps_get_bind {B} (k : State W -> M W B) :
  (forall x, I x -> keeps I P R (k x)) -> keeps I P R (bind get k).
Proof.
  intros Hk s Hs. unfold bind, get.
  specialize (Hk s Hs s Hs). destruct (k s s) as [[o s1] t1]. exact Hk.
Qed.

Lemma keeps_try_except_else {A B}
      (m : M W A) (h : exn -> M W B) (k : A -> M W B) :
  keeps I P R m -> (forall e, keeps I P R (h e)) -> (forall a, keeps I P R (k a)) ->
  keeps I P R (try_except_else m h k).
Proof.
  intros Hm Hh Hk s Hs. unfold try_except_else.
  specialize (Hm s Hs). destruct (m s) as [[o s1] t1].
  destruct Hm as (I1 & R1 & P1).
  destruct o as [a|e| |]; try (short_circuit P1).
  - specialize (Hk a s1 I1). destruct (k a s1) as [[o2 s2] t2].
    destruct Hk as (I2 & R2 & P2).
    split; [assumption|split].
    + apply Forall_app; auto.
    + intros Hne. apply Forall_app; split; [apply P1; discriminate | auto].
  - specialize (Hh e s1 I1). destruct (h e s1) as [[o2 s2] t2].
    destruct Hh as (I2 & R2 & P2).
    split; [assumption|split].
    + apply Forall_app; auto.
    + intros Hne. apply Forall_app; split; [apply P1; discriminate | auto].
Qed.

Lemma keeps_try_except {A} (m : M W A) (h : exn -> M W A) :
  keeps I P R m -> (forall e, keeps I P R (h e)) -> keeps I P R (try_except m h).
Proof.
  intros Hm Hh. apply keeps_try_except_else; auto.
  intros a. apply keeps_ret.
Qed.

(** A [yield FunctionResult(results)] that a [return] follows. *)
Lemma keeps_yield_return {A} :
  (forall s, I s -> R (FunctionResult (results s))) ->
  keeps I P R (yield_result ;; @return_ W A).
Proof.
  intros HR s Hs. cbn. split; [assumption|split].
  - repeat constructor. now apply HR.
  - intros H; now elim H.
Qed.

End Keeps.


Create HintDb keeps.

Section KeepsProgram.

Variable W : Type.
Variable env : Env W.
Variable incident_id : Z.
Variable hostname : string.
Variable days_later_timeout_length : Z.
Variable fuel : nat.

Variable I : State W -> Prop.
Variables P R : event -> Prop.
Hypothesis P_R : forall e, P e -> R e.
Hypothesis I_world : forall w s, I s -> I (set_world w s).
Hypothesis I_sensor : forall x s, I s -> I (set_sensor x s).
Hypothesis I_session : forall x s, I s -> I (set_session x s).
Hypothesis I_success : forall b s, I s -> I (set_was_successful b s).
Hypothesis I_timeouts : forall n s, I s -> I (set_timeouts n s).
Hypothesis P_status : forall m, P (StatusMessage m).
Hypothesis P_log : forall m, P (LogInfo m).
Hypothesis P_sleep : forall n, P (Sleep n).
Hypothesis P_select : P (Select (query hostname)).
Hypothesis P_incident : forall u, P (GetIncident u).
Hypothesis P_request : forall a b, P (RequestSession a b).
Hypothesis P_list : forall a b, P (ListDirectory a b).
Hypothesis P_getfile : forall a b, P (GetFile a b).
Hypothesis P_close : forall a, P (Close a).
Hypothesis P_restart : forall a, P (RestartSensor a).
Hypothesis P_post : forall u z n b, P (PostAttachment u z n b).
Hypothesis P_result : forall s, I s -> P (FunctionResult (results s)).
Hypothesis R_result : forall s, I s -> R (FunctionResult (results s)).

Ltac event :=
  first [ apply P_status | apply P_log | apply P_sleep | apply P_select
        | apply P_incident | apply P_request | apply P_list
        | apply P_getfile | apply P_close | apply P_restart
        | apply P_post ].

Ltac keeps_step :=
  first
    [ apply keeps_ret | apply keeps_raise | apply keeps_return
    | apply keeps_diverge
    | apply keeps_yield_return; exact R_result
    | apply keeps_emit; [exact P_R | event]
    | apply keeps_call; [exact P_R | exact I_world | event]
    | apply keeps_modify; intros ? ?;
      first [ apply I_sensor | apply I_session | apply I_success
            | apply I_timeouts ]; assumption
    | apply keeps_get_bind; intros ? ?
    | apply keeps_bind; [|intros ?]
    | apply keeps_try_except; [|intros ?]
    | apply keeps_try_except_else; [|intros ?|intros ?]
    | match goal with
      | |- keeps _ _ _ (if ?b then _ else _) => destruct b
      | |- keeps _ _ _ (match ?l with [] => _ | _ :: _ => _ end) =>
          destruct l
      | |- keeps _ _ _ (match ?e with
                        | TimeoutError => _
                        | Exception _ => _
                        | NoMessage _ _ => _
                        end) =>
          destruct e
      | |- keeps _ _ _ (match ?r with Ok _ => _ | Err _ => _ end) =>
          destruct r
      | |- keeps _ _ _ (match ?o with Some _ => _ | None => _ end) =>
          destruct o
      | |- keeps _ _ _ (match ?c with Continue => _ | Break => _ end) =>
          destruct c
      end ].

Lemma keeps_call_now : keeps I P R (call_now env).
Proof.
  intros s Hs. unfold call_now. destruct (now env (world s)); cbn; auto.
Qed.

Lemma keeps_call_sleep n : keeps I P R (call_sleep env n).
Proof.
  intros s Hs. cbn. repeat split; auto; repeat constructor;
    try apply P_R; event.
Qed.

Lemma keeps_call_request_session sid :
  keeps I P R (call_request_session env sid).
Proof.
  intros s Hs. unfold call_request_session.
  destruct (request_session env sid (world s)) as [[x|e] w]; cbn;
    repeat split; auto; repeat constructor; try apply P_R; event.
Qed.

Lemma keeps_call_post_attachment u z n :
  keeps I P R (call_post_attachment env u z n).
Proof.
  intros s Hs. unfold call_post_attachment.
  destruct (post_attachment env u z n (world s)) as [[x|e] w]; cbn;
    repeat split; auto; repeat constructor; try apply P_R; event.
Qed.

Lemma keeps_yield_result : keeps I P R (@yield_result W).
Proof.
  intros s Hs. cbn. repeat split; auto; repeat constructor;
    try apply P_R; now apply P_result.
Qed.

Lemma keeps_select_first : keeps I P R (select_first env hostname).
Proof. unfold select_first. repeat keeps_step. Qed.

Lemma keeps_refresh_sensor : keeps I P R (refresh_sensor env hostname).
Proof.
  unfold refresh_sensor. keeps_step; [apply keeps_select_first|keeps_step].
Qed.

Hint Resolve keeps_call_now keeps_call_sleep keeps_call_request_session
     keeps_call_post_attachment keeps_yield_result
     keeps_select_first keeps_refresh_sensor : keeps.

Ltac keeps_auto := repeat first [solve [auto with keeps] | keeps_step].

Lemma keeps_wait_restart n d t :
  keeps I P R (wait_restart env hostname n d t).
Proof.
  revert t; induction n as [|n IH]; intros t; cbn [wait_restart];
    keeps_auto.
Qed.

Lemma keeps_wait_online n t :
  keeps I P R (wait_online env hostname days_later_timeout_length n t).
Proof.
  revert t; induction n as [|n IH]; intros t; cbn [wait_online];
    keeps_auto.
Qed.

Hint Resolve keeps_wait_restart keeps_wait_online : keeps.

Lemma keeps_availability :
  keeps I P R (availability env hostname days_later_timeout_length fuel).
Proof. unfold availability. keeps_auto. Qed.

Lemma keeps_verify_incident :
  keeps I P R (verify_incident env incident_id).
Proof. unfold verify_incident. keeps_auto. Qed.

Lemma keeps_open_session : keeps I P R (open_session env).
Proof. unfold open_session. keeps_auto. Qed.

Lemma keeps_probe x d fs : keeps I P R (probe env x d fs).
Proof. unfold probe. keeps_auto. Qed.

Hint Resolve keeps_probe : keeps.

Lemma keeps_discover x : keeps I P R (discover env x).
Proof. unfold discover. keeps_auto. Qed.

Lemma keeps_package x fs zip : keeps I P R (package env x fs zip).
Proof.
  revert zip; induction fs as [|f fs IH]; intros zip; cbn [package];
    keeps_auto.
Qed.

Hint Resolve keeps_availability keeps_verify_incident keeps_open_session
     keeps_discover keeps_package : keeps.

Lemma keeps_prepare :
  keeps I P R
        (prepare env incident_id hostname days_later_timeout_length fuel).
Proof. unfold prepare. keeps_auto. Qed.

Hint Resolve keeps_prepare : keeps.

Lemma keeps_collect :
  keeps I P R
        (collect env incident_id hostname days_later_timeout_length fuel).
Proof. unfold collect, no_logs. keeps_auto. Qed.

Lemma keeps_upload zip : keeps I P R (upload env incident_id zip).
Proof. unfold upload. keeps_auto. Qed.

Hint Resolve keeps_collect keeps_upload : keeps.

Lemma keeps_attempt :
  keeps I P R
        (attempt env incident_id hostname days_later_timeout_length fuel).
Proof. unfold attempt. keeps_auto. Qed.

Lemma keeps_close_session : keeps I P R (close_session env).
Proof. unfold close_session. keeps_auto. Qed.

Hint Resolve keeps_attempt keeps_close_session : keeps.

Lemma keeps_note_timeout : keeps I P R (@note_timeout W).
Proof. unfold note_timeout. keeps_auto. Qed.

Lemma keeps_recover : keeps I P R (recover env hostname).
Proof. unfold recover. keeps_auto. Qed.

Hint Resolve keeps_note_timeout keeps_recover : keeps.

Lemma keeps_on_timeout : keeps I P R (on_timeout env hostname).
Proof. unfold on_timeout. keeps_auto. Qed.

Lemma keeps_on_error err : keeps I P R (@on_error W err).
Proof. unfold on_error. keeps_auto. Qed.

Lemma keeps_finish : keeps I P R (finish env).
Proof. unfold finish. keeps_auto. Qed.

Hint Resolve keeps_on_timeout keeps_on_error keeps_finish : keeps.

Lemma keeps_iteration :
  keeps I P R
        (iteration env incident_id hostname days_later_timeout_length fuel).
Proof. unfold iteration. keeps_auto. Qed.

Hint Resolve keeps_iteration : keeps.

Lemma keeps_retry_loop budget :
  keeps I P R
        (retry_loop env incident_id hostname days_later_timeout_length fuel
                    budget).
Proof. induction budget as [|n IH]; cbn [retry_loop]; keeps_auto. Qed.

End KeepsProgram.


(** ** The parts of an iteration *)

Lemma flat_map_none {A B} (f : A -> list B) (l : list A) :
  Forall (fun a => f a = []) l -> flat_map f l = [].
Proof.
  induction 1 as [|a l Ha _ IH]; cbn; [reflexivity|]. now rewrite Ha, IH.
Qed.

Lemma count_app f a b : count f (a ++ b) = (count f a + count f b)%nat.
Proof. unfold count. now rewrite filter_app, length_app. Qed.

Lemma count_cons_false f e l : f e = false -> count f (e :: l) = count f l.
Proof. unfold count; cbn. now intros ->. Qed.

Lemma count_none f l : Forall (fun e => f e = false) l -> count f l = O.
Proof.
  unfold count. induction 1 as [|a l Ha _ IH]; cbn; [reflexivity|].
  now rewrite Ha.
Qed.

Lemma collect_attempt_event q e :
  collect_event q e = true -> attempt_event q e = true.
Proof. destruct e; cbn; congruence. Qed.

Section Facts.

Variable W : Type.
Variable env : Env W.
Variable incident_id : Z.
Variable hostname : string.
Variable days_later_timeout_length : Z.
Variable fuel : nat.

Lemma collect_keeps s :
  keeps (same_locals s)
        (fun e => collect_event (query hostname) e = true)
        (fun _ => True)
        (collect env incident_id hostname days_later_timeout_length fuel).
Proof.
  apply keeps_collect; try (intros; reflexivity); try (intros; exact I);
    try (intros ? ? H; exact H).
  apply String.eqb_refl.
Qed.

(** An iteration that an exception ends has posted nothing, emitted no
    result and restarted nothing. *)
Lemma attempt_raise s e s' t :
  attempt env incident_id hostname days_later_timeout_length fuel s
  = (Raise e, s', t) ->
  same_locals s s'
  /\ Forall (fun e => attempt_event (query hostname) e = true) t.
Proof.
  unfold attempt, bind. intros H.
  pose proof (collect_keeps s s (conj eq_refl eq_refl)) as K.
  destruct (collect env incident_id hostname days_later_timeout_length
                    fuel s) as [[o1 s1] t1].
  destruct K as (K1 & _ & K2).
  destruct o1 as [zip|e1| |]; try discriminate.
  - assert (T1 : Forall (fun e => attempt_event (query hostname) e = true) t1).
    { eapply Forall_impl; [|apply K2; discriminate].
      intros a; apply collect_attempt_event. }
    revert H. unfold upload, bind, get, call_post_attachment.
    destruct (post_attachment env _ zip _ (world s1)) as [[u|x] w];
      cbn; intros H; inversion H; subst.
    split; [exact K1|].
    apply Forall_app; split; [exact T1|]. repeat constructor.
  - inversion H; subst. split; [exact K1|].
    eapply Forall_impl; [|apply K2; discriminate].
    intros a; apply collect_attempt_event.
Qed.

(** An iteration that falls through has posted the attachment as its last
    call. *)
Lemma attempt_normal s a s' t :
  attempt env incident_id hostname days_later_timeout_length fuel s
  = (Normal a, s', t) ->
  same_locals s s'
  /\ exists t0 zip,
      Forall (fun e => collect_event (query hostname) e = true) t0
      /\ t = t0
              ++ [PostAttachment
                    ("/incidents/" +:+ PyStr.str incident_id +:+ "/attachments")
                    zip (attachment_name (sensor_hostname (sensor s'))) true;
                  StatusMessage
                    "[SUCCESS] Posted ZIP file of AV logs to the incident as an attachment!"].
Proof.
  unfold attempt, bind. intros H.
  pose proof (collect_keeps s s (conj eq_refl eq_refl)) as K.
  destruct (collect env incident_id hostname days_later_timeout_length
                    fuel s) as [[o1 s1] t1].
  destruct K as (K1 & _ & K2).
  destruct o1 as [zip|e1| |]; try discriminate.
  revert H. unfold upload, bind, get, call_post_attachment.
  destruct (post_attachment env _ zip _ (world s1)) as [[u|x] w];
    cbn; intros H; inversion H; subst.
  split; [exact K1|]. exists t1, zip. split; [apply K2; discriminate|].
  reflexivity.
Qed.

Lemma recover_keeps (s : State W) :
  keeps (fun x : State W =>
           timeouts x = timeouts s /\ results x = results s)
        (fun e => recovery_event (query hostname) e = true)
        (fun e => recovery_event (query hostname) e = true)
        (recover env hostname).
Proof.
  apply keeps_recover; try (intros; reflexivity);
    try (intros ? ? H; exact H); try (intros ? H; exact H).
  apply String.eqb_refl.
Qed.

Lemma bind_normal {A B} (m : M W A) (f : A -> M W B) s b s' t :
  bind m f s = (Normal b, s', t) ->
  exists a s1 t1 t2,
    m s = (Normal a, s1, t1) /\ f a s1 = (Normal b, s', t2)
    /\ t = t1 ++ t2.
Proof.
  unfold bind. destruct (m s) as [[[a| | |] s1] t1]; try discriminate.
  destruct (f a s1) as [[o2 s2] t2] eqn:E. intros H; inversion H; subst.
  exists a, s1, t1, t2. auto.
Qed.

Lemma call_trace {A} e (f : W -> res A * W) s o s' t :
  call e f s = (o, s', t) -> t = [e].
Proof.
  unfold call. destruct (f (world s)) as [[a|x] w]; intros H;
    inversion H; reflexivity.
Qed.

Lemma no_restart_close_session s o s' t :
  close_session env s = (o, s', t) ->
  Forall (fun e => is_restart e = false) t.
Proof.
  intros H.
  pose proof (keeps_close_session W env (fun _ => True)
                (fun e => is_restart e = false)
                (fun e => is_restart e = false)
                (fun _ H => H) (fun _ _ _ => I) (fun _ => eq_refl)
                s I) as K.
  rewrite H in K. destruct K as (_ & K & _). exact K.
Qed.

Lemma no_restart_refresh_sensor s o s' t :
  refresh_sensor env hostname s = (o, s', t) ->
  Forall (fun e => is_restart e = false) t.
Proof.
  intros H.
  pose proof (keeps_refresh_sensor W env hostname (fun _ => True)
                (fun e => is_restart e = false)
                (fun e => is_restart e = false)
                (fun _ H => H) (fun _ _ _ => I) (fun _ _ _ => I) eq_refl
                s I) as K.
  rewrite H in K. destruct K as (_ & K & _). exact K.
Qed.

(** The handler restarts the sensor once. *)
Lemma recover_restarts s s' t :
  recover env hostname s = (Normal tt, s', t) ->
  count is_restart t = 1%nat.
Proof.
  unfold recover. intros H.
  apply bind_normal in H as (a1 & s1 & t1 & r1 & H1 & H & ->).
  apply bind_normal in H as (a2 & s2 & t2 & r2 & H2 & H & ->).
  apply bind_normal in H as (a3 & s3 & t3 & r3 & H3 & H & ->).
  apply bind_normal in H as (a4 & s4 & t4 & r4 & H4 & H & ->).
  apply bind_normal in H as (a5 & s5 & t5 & r5 & H5 & H & ->).
  inversion H3; subst. apply call_trace in H4. subst t4.
  inversion H5; subst.
  apply no_restart_close_session in H1.
  apply no_restart_refresh_sensor in H2.
  apply no_restart_refresh_sensor in H.
  rewrite !count_app.
  rewrite (count_none _ _ H1), (count_none _ _ H2), (count_none _ _ H).
  reflexivity.
Qed.

Lemma note_timeout_eq (s : State W) :
  note_timeout s
  = if timeouts s + 1 <=? MAX_TIMEOUTS
    then (Normal tt, set_timeouts (timeouts s + 1) s,
          [StatusMessage
             ("[ERROR] TimeoutError was encountered. Reattempting... ("
              +:+ PyStr.str (timeouts s + 1) +:+ "/3)")])
    else (Normal tt,
          set_was_successful false (set_timeouts (timeouts s + 1) s),
          [StatusMessage
             "[FATAL ERROR] TimeoutError was encountered. The maximum number of retries was reached. Aborting!";
           StatusMessage "[FAILURE] Fatal error caused exit!"]).
Proof.
  unfold note_timeout, bind, modify, get, emit. cbn.
  destruct (timeouts s + 1 <=? MAX_TIMEOUTS); reflexivity.
Qed.

Lemma on_timeout_normal s s' t :
  on_timeout env hostname s = (Normal tt, s', t) ->
  timeouts s' = timeouts s + 1
  /\ result_hostname (results s') = result_hostname (results s)
  /\ (MAX_TIMEOUTS < timeouts s' ->
      was_successful (results s') = Some false)
  /\ (timeouts s' <= MAX_TIMEOUTS -> results s' = results s)
  /\ count is_restart t = 1%nat
  /\ Forall (fun e => recovery_event (query hostname) e = true) t.
Proof.
  unfold on_timeout, bind. rewrite note_timeout_eq.
  destruct (timeouts s + 1 <=? MAX_TIMEOUTS) eqn:Hle.
  - pose proof (recover_keeps (set_timeouts (timeouts s + 1) s) _
                              (conj eq_refl eq_refl)) as K.
    pose proof (recover_restarts (set_timeouts (timeouts s + 1) s)) as C.
    destruct (recover env hostname (set_timeouts (timeouts s + 1) s))
      as [[o s2] t2].
    destruct K as ((K1 & K2) & K3 & _).
    destruct o as [[]| | |]; intros H; inversion H; subst.
    cbn in K1, K2. rewrite K1, K2.
    apply Z.leb_le in Hle.
    split; [reflexivity|]. split; [reflexivity|].
    split; [intros; lia|]. split; [reflexivity|]. split.
    + rewrite !count_cons_false by reflexivity. exact (C _ _ eq_refl).
    + repeat (constructor; [reflexivity|]). exact K3.
  - pose proof (recover_keeps
                  (set_was_successful false
                     (set_timeouts (timeouts s + 1) s)) _
                  (conj eq_refl eq_refl)) as K.
    pose proof (recover_restarts
                  (set_was_successful false
                     (set_timeouts (timeouts s + 1) s))) as C.
    destruct (recover env hostname
                      (set_was_successful false
                         (set_timeouts (timeouts s + 1) s)))
      as [[o s2] t2].
    destruct K as ((K1 & K2) & K3 & _).
    destruct o as [[]| | |]; intros H; inversion H; subst.
    cbn in K1, K2. rewrite K1, K2.
    apply Z.leb_gt in Hle.
    split; [reflexivity|]. split; [reflexivity|].
    split; [reflexivity|]. split; [intros; lia|]. split.
    + rewrite !count_cons_false by reflexivity. exact (C _ _ eq_refl).
    + repeat (constructor; [reflexivity|]). exact K3.
Qed.

(** The last lines of an iteration never fail. *)
Lemma finish_normal s :
  exists s' t,
    finish env s = (Normal tt, s', t)
    /\ results s' = results s
    /\ timeouts s' = timeouts s
    /\ Forall (fun e => recovery_event (query hostname) e = true) t.
Proof.
  unfold finish, close_session, try_except, try_except_else, bind, get,
    call, emit, ret. cbn.
  destruct (session s) as [x|]; cbn.
  - destruct (close env (session_id x) (world s)) as [[u|e] w]; cbn;
      do 2 eexists; repeat split; repeat constructor.
  - do 2 eexists; repeat split; repeat constructor.
Qed.

(** *** The loop *)

Lemma iteration_timeout s s1 t1 s2 t2 :
  attempt env incident_id hostname days_later_timeout_length fuel s
  = (Raise TimeoutError, s1, t1) ->
  on_timeout env hostname s1 = (Normal tt, s2, t2) ->
  iteration env incident_id hostname days_later_timeout_length fuel s
  = (Normal Continue, s2, t1 ++ t2).
Proof.
  intros H1 H2. unfold iteration, try_except_else. rewrite H1.
  unfold bind. rewrite H2. cbn. now rewrite app_nil_r.
Qed.

Lemma iteration_return s s1 t1 :
  attempt env incident_id hostname days_later_timeout_length fuel s
  = (Return, s1, t1) ->
  iteration env incident_id hostname days_later_timeout_length fuel s
  = (Return, s1, t1).
Proof.
  intros H1. unfold iteration, try_except_else. now rewrite H1.
Qed.

Lemma iteration_success s a s1 t1 :
  attempt env incident_id hostname days_later_timeout_length fuel s
  = (Normal a, s1, t1) ->
  exists s2 t2,
    iteration env incident_id hostname days_later_timeout_length fuel s
    = (Normal Break, s2, t1 ++ t2)
    /\ results s2 = mkResults (Some true) (result_hostname (results s1))
    /\ timeouts s2 = timeouts s1
    /\ Forall (fun e => recovery_event (query hostname) e = true) t2.
Proof.
  intros H1. unfold iteration, try_except_else. rewrite H1.
  destruct (finish_normal (set_was_successful true s1))
    as (s2 & t2 & F & F1 & F2 & F3).
  exists s2, t2. unfold bind, modify. rewrite F. cbn.
  rewrite app_nil_r. auto.
Qed.

Lemma retry_loop_S k s :
  timeouts s <= MAX_TIMEOUTS ->
  retry_loop env incident_id hostname days_later_timeout_length fuel (S k) s
  = match iteration env incident_id hostname days_later_timeout_length
                    fuel s with
    | (Normal Continue, s1, t1) =>
        let '(o, s2, t2) :=
          retry_loop env incident_id hostname days_later_timeout_length
                     fuel k s1 in
        (o, s2, t1 ++ t2)
    | (Normal Break, s1, t1) => (Normal tt, s1, t1)
    | (Raise e, s1, t1) => (Raise e, s1, t1)
    | (Return, s1, t1) => (Return, s1, t1)
    | (Diverge, s1, t1) => (Diverge, s1, t1)
    end.
Proof.
  intros H. apply Z.leb_le in H. cbn [retry_loop]. unfold bind, get.
  rewrite H.
  destruct (iteration env incident_id hostname days_later_timeout_length
                      fuel s) as [[[c| | |] s1] t1]; try reflexivity.
  destruct c; cbn.
  - now destruct (retry_loop env incident_id hostname
                             days_later_timeout_length fuel k s1)
      as [[o s2] t2].
  - now rewrite app_nil_r.
Qed.

Lemma retry_loop_exit k s :
  MAX_TIMEOUTS < timeouts s ->
  retry_loop env incident_id hostname days_later_timeout_length fuel k s
  = (Normal tt, s, []).
Proof.
  intros H. apply Z.leb_gt in H.
  destruct k; cbn [retry_loop]; unfold bind, get; rewrite H; reflexivity.
Qed.

Lemma row_loop n s tr s' :
  timeouts_in_a_row env incident_id hostname days_later_timeout_length fuel
                    n s tr s' ->
  forall k,
    retry_loop env incident_id hostname days_later_timeout_length fuel
               (n + k) s
    = let '(o, s2, t2) :=
        retry_loop env incident_id hostname days_later_timeout_length fuel
                   k s' in
      (o, s2, tr ++ t2).
Proof.
  induction 1 as [s|n s s1 t1 s2 t2 s3 t3 Hle Ha Ht _ IH]; intros k.
  - cbn [plus app].
    now destruct (retry_loop env incident_id hostname
                             days_later_timeout_length fuel k s)
      as [[o s2] t2].
  - cbn [plus]. rewrite (retry_loop_S _ _ Hle).
    rewrite (iteration_timeout _ _ _ _ _ Ha Ht). rewrite IH.
    destruct (retry_loop env incident_id hostname
                         days_later_timeout_length fuel k s3)
      as [[o s4] t4].
    now rewrite <- !app_assoc.
Qed.

Lemma row_facts n s tr s' :
  timeouts_in_a_row env incident_id hostname days_later_timeout_length fuel
                    n s tr s' ->
  timeouts s' = timeouts s + Z.of_nat n
  /\ result_hostname (results s') = result_hostname (results s)
  /\ (n = O \/ timeouts s' - 1 <= MAX_TIMEOUTS)
  /\ ((0 < n)%nat -> MAX_TIMEOUTS < timeouts s' ->
      was_successful (results s') = Some false)
  /\ count is_restart tr = n
  /\ Forall (fun e => attempt_event (query hostname) e = true
                      \/ recovery_event (query hostname) e = true) tr.
Proof.
  induction 1 as [s|n s s1 t1 s2 t2 s3 t3 Hle Ha Ht Hrow IH].
  - repeat split; auto; lia.
  - destruct (attempt_raise _ _ _ _ Ha) as ((A1 & A2) & A3).
    destruct (on_timeout_normal _ _ _ Ht) as (T1 & T2 & T3 & _ & T5 & T6).
    destruct IH as (I1 & I2 & I3 & I4 & I5 & I6).
    split; [lia|]. split; [congruence|]. split; [right; lia|].
    split; [|split].
    + intros _ Hgt. destruct n as [|n].
      * inversion Hrow; subst. now apply T3.
      * apply I4; [lia | exact Hgt].
    + rewrite !count_app, T5, I5. rewrite count_none; [reflexivity|].
      eapply Forall_impl; [|exact A3].
      intros e He. destruct e; cbn in *; congruence.
    + apply Forall_app; split; [|apply Forall_app; split].
      * eapply Forall_impl; [|exact A3]. intros e He; now left.
      * eapply Forall_impl; [|exact T6]. intros e He; now right.
      * exact I6.
Qed.

Lemma quiet_event e :
  attempt_event (query hostname) e = true
  \/ recovery_event (query hostname) e = true ->
  result_of e = [] /\ posted_of e = [].
Proof.
  intros [H|H]; destruct e; cbn in *; try discriminate; auto.
  destruct posted; [discriminate | auto].
Qed.

Lemma row_quiet n s tr s' :
  timeouts_in_a_row env incident_id hostname days_later_timeout_length fuel
                    n s tr s' ->
  emitted_results tr = [] /\ posted_names tr = [].
Proof.
  intros H. apply row_facts in H as (_ & _ & _ & _ & _ & H).
  split; apply flat_map_none; eapply Forall_impl; try exact H;
    intros e He; now apply quiet_event in He.
Qed.

(** An iteration that is followed by another one has counted a timeout. *)
Lemma iteration_continue s s' t :
  iteration env incident_id hostname days_later_timeout_length fuel s
  = (Normal Continue, s', t) ->
  timeouts s' = timeouts s + 1.
Proof.
  unfold iteration, try_except_else.
  destruct (attempt env incident_id hostname days_later_timeout_length fuel s)
    as [[[a|[|m|m c]| |] s1] t1] eqn:Ha; try discriminate.
  - destruct (finish_normal (set_was_successful true s1))
      as (s2 & t2 & F & _).
    unfold bind, modify. rewrite F. discriminate.
  - destruct (attempt_raise _ _ _ _ Ha) as ((A1 & _) & _).
    unfold bind.
    destruct (on_timeout env hostname s1) as [[[[]| | |] s2] t2] eqn:Ht;
      try discriminate.
    destruct (on_timeout_normal _ _ _ Ht) as (T1 & _).
    cbn. intros H; inversion H; subst. lia.
  - destruct (finish_normal (set_was_successful false s1))
      as (s2 & t2 & F & _).
    unfold on_error, bind, emit, modify. cbn. rewrite F. discriminate.
  - destruct (finish_normal (set_was_successful false s1))
      as (s2 & t2 & F & _).
    unfold on_error, bind, emit, modify. cbn. rewrite F. discriminate.
Qed.

(** The loop never stops for want of budget: a budget above the number of
    timeouts that are left is as good as any larger one. *)
Lemma retry_loop_budget k s :
  (Z.to_nat (MAX_TIMEOUTS + 1 - timeouts s) <= k)%nat ->
  retry_loop env incident_id hostname days_later_timeout_length fuel (S k) s
  = retry_loop env incident_id hostname days_later_timeout_length fuel k s.
Proof.
  revert s. induction k as [|k IH]; intros s Hk.
  - rewrite !retry_loop_exit; [reflexivity | lia | lia].
  - destruct (Z.le_gt_cases (timeouts s) MAX_TIMEOUTS) as [Hle|Hgt].
    + rewrite !(retry_loop_S _ _ Hle).
      destruct (iteration env incident_id hostname days_later_timeout_length
                          fuel s) as [[[[|]| | |] s1] t1] eqn:Hit;
        try reflexivity.
      apply iteration_continue in Hit.
      rewrite IH; [reflexivity | lia].
    + rewrite !retry_loop_exit; [reflexivity | lia | lia].
Qed.

Lemma retry_budget_enough k s :
  timeouts s = 0 ->
  retry_loop env incident_id hostname days_later_timeout_length fuel
             (retry_budget + k) s
  = retry_loop env incident_id hostname days_later_timeout_length fuel
               retry_budget s.
Proof.
  intros H0. induction k as [|k IH].
  - now rewrite Nat.add_0_r.
  - rewrite Nat.add_succ_r, retry_loop_budget; [exact IH|].
    rewrite H0. change retry_budget with 5%nat.
    change (Z.to_nat (MAX_TIMEOUTS + 1 - 0)) with 4%nat. lia.
Qed.

End Facts.

Lemma follow_timeouts_sound {W} (env : Env W) incident_id hostname days fuel
      n s tr s' :
  follow_timeouts env incident_id hostname days fuel n s = Some (tr, s') ->
  timeouts_in_a_row env incident_id hostname days fuel n s tr s'.
Proof.
  revert s tr s'. induction n as [|n IH]; intros s tr s'; cbn [follow_timeouts].
  - intros H; inversion H; constructor.
  - destruct (timeouts s <=? MAX_TIMEOUTS) eqn:Hle; [|discriminate].
    destruct (attempt env incident_id hostname days fuel s)
      as [[[a|[|m|m c]| |] s1] t1] eqn:Ha; try discriminate.
    destruct (on_timeout env hostname s1) as [[[[]| | |] s2] t2] eqn:Ht;
      try discriminate.
    destruct (follow_timeouts env incident_id hostname days fuel n s2)
      as [[t3 s3]|] eqn:Hf; [|discriminate].
    intros H; inversion H; subst.
    eapply row_S; eauto. now apply Z.leb_le.
Qed.

Lemma loop_after_row {W} (env : Env W) incident_id hostname days fuel
      n (s0 : State W) tr s :
  timeouts s0 = 0 ->
  timeouts_in_a_row env incident_id hostname days fuel n s0 tr s ->
  timeouts s <= MAX_TIMEOUTS ->
  retry_loop env incident_id hostname days fuel retry_budget s0
  = let '(o, s2, t2) :=
      retry_loop env incident_id hostname days fuel (S (4 - n)) s in
    (o, s2, tr ++ t2).
Proof.
  intros H0 Hrow Hle.
  destruct (row_facts _ _ _ _ _ _ _ _ _ _ Hrow) as (T & _).
  assert (n <= 3)%nat by (unfold MAX_TIMEOUTS in *; lia).
  replace retry_budget with (n + S (4 - n))%nat
    by (change retry_budget with 5%nat; lia).
  now apply row_loop.
Qed.

(** ** The whole function *)

Lemma normalize_eq h : normalize h = PyStr.upper (PyStr.slice_to 15 h).
Proof. unfold normalize, PyStr.upper. apply PyStrFacts.slice_to_map. Qed.

Lemma upper_normalize h : PyStr.upper (normalize h) = normalize h.
Proof. rewrite normalize_eq. apply PyStrFacts.upper_idem. Qed.

Lemma main_found {W} (env : Env W) fuel incident_id hostname_arg w t w1 x l w2 :
  now env w = (t, w1) ->
  select env (query (normalize hostname_arg)) w1 = (Ok (x :: l), w2) ->
  main env fuel incident_id hostname_arg w
  = match (retry_loop env incident_id (normalize hostname_arg)
                      (t + timedelta_days DAYS_UNTIL_TIMEOUT) fuel
                      retry_budget ;;
           yield_result)
            (initial_state w2 x (normalize hostname_arg)) with
    | (Normal _, s, tr) | (Return, s, tr) =>
        (true, world s, Select (query (normalize hostname_arg)) :: tr)
    | (Raise _, s, tr) =>
        (true, world s,
         Select (query (normalize hostname_arg)) :: tr ++ [FunctionError])
    | (Diverge, s, tr) =>
        (false, world s, Select (query (normalize hostname_arg)) :: tr)
    end.
Proof.
  intros Hn Hs. unfold main. rewrite Hn, Hs.
  destruct ((retry_loop env incident_id (normalize hostname_arg)
                        (t + timedelta_days DAYS_UNTIL_TIMEOUT) fuel
                        retry_budget ;;
             yield_result) (initial_state w2 x (normalize hostname_arg)))
    as [[[u|e| |] s] tr]; reflexivity.
Qed.



(** C4: when the agent directory has no sensor for the hostname, the function
    announces it, emits a result with [was_successful = False] and ends: one
    lookup, no session, no restart. *)
Theorem agent_not_found_fails_at_once
        {W} (env : Env W) fuel incident_id hostname_arg w :
  fst (select env (query (normalize hostname_arg)) (snd (now env w))) = Ok [] ->
  let tr := snd (main env fuel incident_id hostname_arg w) in
  fst (fst (main env fuel incident_id hostname_arg w)) = true
  /\ tr = [Select (query (normalize hostname_arg));
           StatusMessage ("[FATAL ERROR] CB could not find hostname: "
                          +:+ normalize hostname_arg);
           FunctionResult (mkResults (Some false) None)]
  /\ map was_successful (emitted_results tr) = [Some false]
  /\ count is_select tr = 1%nat
  /\ count is_request tr = 0%nat
  /\ count is_restart tr = 0%nat.
Proof.
  intros H. unfold main. destruct (now env w) as [t w1]. cbn [snd] in H.
  destruct (select env (query (normalize hostname_arg)) w1) as [r w2].
  cbn [fst] in H. subst r. cbn. auto 10.
Qed.

Lemma agent_not_found_witness :
  fst (select Script.env (query (normalize "host1"))
              (snd (now Script.env Script.no_agent))) = Ok []
  /\ snd (main Script.env 0 42 "host1" Script.no_agent)
     = [Select "hostname:HOST1";
        StatusMessage "[FATAL ERROR] CB could not find hostname: HOST1";
        FunctionResult (mkResults (Some false) None)].
Proof.
  split; [reflexivity|].
  apply (agent_not_found_fails_at_once Script.env 0 42 "host1" Script.no_agent).
  reflexivity.
Defined.

(** C8: on the path of a hostname without a sensor the emitted result has no
    hostname entry: the function returns before line 68 sets it. *)
Theorem agent_not_found_result_has_no_hostname :
  Script.run 0 42 "host1" Script.no_agent
  = (true,
     [Select "hostname:HOST1";
      StatusMessage "[FATAL ERROR] CB could not find hostname: HOST1";
      FunctionResult (mkResults (Some false) None)])
  /\ map result_hostname
         (emitted_results (snd (Script.run 0 42 "host1" Script.no_agent)))
     = [None].
Proof. split; reflexivity. Qed.

(** C1: when no log file is found the function returns with the session
    still open: the session it opened is never closed. *)
Theorem no_logs_leaves_session_open :
  let tr := snd (Script.run 0 42 "host1" Script.no_logs_world) in
  count (is_opened 11) tr = 1%nat
  /\ count (is_close 11) tr = 0%nat
  /\ emitted_results tr = [mkResults (Some false) (Some "HOST1")].
Proof. repeat split. Qed.

(** When a later [request_session] times out, [session] still names the
    session of the earlier iteration, which is closed once more. *)
Lemma stale_session_closed_again :
  let tr := snd (Script.run 0 42 "host1" Script.stale_session) in
  count (is_opened 11) tr = 1%nat /\ count (is_close 11) tr = 4%nat.
Proof. split; vm_compute; reflexivity. Qed.




Lemma collect_quiet q t :
  Forall (fun e => collect_event q e = true) t ->
  emitted_results t = [] /\ posted_names t = []
  /\ count is_restart t = 0%nat.
Proof.
  intros H. repeat split.
  - apply flat_map_none. eapply Forall_impl; [|exact H].
    intros e He; destruct e; cbn in *; congruence.
  - apply flat_map_none. eapply Forall_impl; [|exact H].
    intros e He; destruct e; cbn in *; congruence.
  - apply count_none. eapply Forall_impl; [|exact H].
    intros e He; destruct e; cbn in *; congruence.
Qed.

Lemma recovery_quiet q t :
  Forall (fun e => recovery_event q e = true) t ->
  emitted_results t = [] /\ posted_names t = [].
Proof.
  intros H. split.
  - apply flat_map_none. eapply Forall_impl; [|exact H].
    intros e He; destruct e; cbn in *; congruence.
  - apply flat_map_none. eapply Forall_impl; [|exact H].
    intros e He; destruct e; cbn in *; congruence.
Qed.

Section Paths.

Variable W : Type.
Variable env : Env W.
Variable incident_id : Z.
Variable hostname : string.
Variable days_later_timeout_length : Z.
Variable fuel : nat.

(** The wait for the sensor opens no session and emits no result unless it
    gives up. *)
Lemma availability_normal s a s1 t1 :
  availability env hostname days_later_timeout_length fuel s
  = (Normal a, s1, t1) ->
  same_locals s s1
  /\ Forall (fun e => collect_event (query hostname) e = true
                      /\ is_request e = false) t1.
Proof.
  intros H.
  assert (K : keeps (same_locals s)
                    (fun e => collect_event (query hostname) e = true
                              /\ is_request e = false)
                    (fun _ => True)
                    (availability env hostname days_later_timeout_length
                                  fuel)).
  { apply keeps_availability; try (intros; exact I);
      try (intros; assumption); try (intros; split; reflexivity).
    split; [apply String.eqb_refl | reflexivity]. }
  specialize (K s (conj eq_refl eq_refl)). rewrite H in K.
  destruct K as (K1 & _ & K2). split; [exact K1|].
  apply K2; discriminate.
Qed.

Lemma verify_incident_fails s e w3 m :
  get_incident env (incident_url incident_id) (world s) = (Err e, w3) ->
  message_of e = Ok m ->
  exists logs,
    verify_incident env incident_id s
    = (Return, set_world w3 s,
       GetIncident (incident_url incident_id) :: logs)
    /\ Forall (fun e => is_log e = true) logs.
Proof.
  intros H Hm. unfold verify_incident, try_except, try_except_else, call.
  rewrite H, Hm. unfold bind, emit, return_.
  destruct (negb (m =? "")%string
            && PyStr.contains "not found" (PyStr.lower m))%bool;
    cbn; eexists; (split; [reflexivity|]); repeat constructor.
Qed.

Lemma attempt_incident_fails s s1 t1 e w3 m :
  availability env hostname days_later_timeout_length fuel s
  = (Normal tt, s1, t1) ->
  get_incident env (incident_url incident_id) (world s1) = (Err e, w3) ->
  message_of e = Ok m ->
  exists logs,
    attempt env incident_id hostname days_later_timeout_length fuel s
    = (Return, set_world w3 s1,
       t1 ++ GetIncident (incident_url incident_id) :: logs)
    /\ Forall (fun e => is_log e = true) logs.
Proof.
  intros Ha Hi Hm.
  destruct (verify_incident_fails s1 e w3 m Hi Hm) as (logs & Hv & Hl).
  exists logs. split; [|exact Hl].
  unfold attempt, collect, prepare, bind. rewrite Ha, Hv. reflexivity.
Qed.

(** The handler of the lookup fails itself when it cannot read the message
    of the exception. *)
Lemma attempt_incident_crashes s s1 t1 e w3 a :
  availability env hostname days_later_timeout_length fuel s
  = (Normal tt, s1, t1) ->
  get_incident env (incident_url incident_id) (world s1) = (Err e, w3) ->
  message_of e = Err a ->
  attempt env incident_id hostname days_later_timeout_length fuel s
  = (Raise a, set_world w3 s1,
     t1 ++ [GetIncident (incident_url incident_id)]).
Proof.
  intros Ha Hi Hm.
  unfold attempt, collect, prepare, bind. rewrite Ha.
  unfold verify_incident, try_except, try_except_else, call.
  rewrite Hi, Hm. reflexivity.
Qed.

Lemma prepare_normal s x s1 t1 :
  prepare env incident_id hostname days_later_timeout_length fuel s
  = (Normal x, s1, t1) ->
  same_locals s s1
  /\ Forall (fun e => collect_event (query hostname) e = true) t1.
Proof.
  intros H.
  assert (K : keeps (same_locals s)
                    (fun e => collect_event (query hostname) e = true)
                    (fun _ => True)
                    (prepare env incident_id hostname
                             days_later_timeout_length fuel)).
  { apply keeps_prepare; try (intros; exact I); try (intros; assumption);
      try (intros; reflexivity). apply String.eqb_refl. }
  specialize (K s (conj eq_refl eq_refl)). rewrite H in K.
  destruct K as (K1 & _ & K2). split; [exact K1|].
  apply K2; discriminate.
Qed.

Lemma discover_any x s o s1 t1 :
  discover env x s = (o, s1, t1) ->
  same_locals s s1
  /\ Forall (fun e => collect_event (query hostname) e = true) t1.
Proof.
  intros H.
  assert (K : keeps (same_locals s)
                    (fun e => collect_event (query hostname) e = true)
                    (fun e => collect_event (query hostname) e = true)
                    (discover env x)).
  { apply keeps_discover; try (intros; exact I); try (intros; assumption);
      try (intros; reflexivity). }
  specialize (K s (conj eq_refl eq_refl)). rewrite H in K.
  destruct K as (K1 & K2 & _). auto.
Qed.

Lemma attempt_no_logs s x s1 t1 s2 t2 :
  prepare env incident_id hostname days_later_timeout_length fuel s
  = (Normal x, s1, t1) ->
  discover env x s1 = (Normal [], s2, t2) ->
  attempt env incident_id hostname days_later_timeout_length fuel s
  = (Return, set_was_successful false s2,
     t1 ++ t2
     ++ [StatusMessage
           "[FATAL ERROR] Could not find a valid AV log path with logs on Sensor!";
         FunctionResult
           (mkResults (Some false) (result_hostname (results s2)))]).
Proof.
  intros Hp Hd. unfold attempt, collect, bind. rewrite Hp, Hd.
  reflexivity.
Qed.

End Paths.

Section AfterTimeouts.

Variable W : Type.
Variable env : Env W.
Variable fuel : nat.
Variable incident_id : Z.
Variable hostname_arg : string.
Variable w : W.

(** The deadline of line 56, the sensor of line 67 and the iteration the
    loop has reached after [n] timeouts. *)
Variables (t : Z) (w1 : W) (x : Sensor) (l : list Sensor) (w2 : W).
Variables (n : nat) (tr : list event) (s : State W).
Hypothesis H_now : now env w = (t, w1).
Hypothesis H_select :
  select env (query (normalize hostname_arg)) w1 = (Ok (x :: l), w2).
Hypothesis H_row :
  timeouts_in_a_row env incident_id (normalize hostname_arg)
                    (t + timedelta_days DAYS_UNTIL_TIMEOUT) fuel n
                    (initial_state w2 x (normalize hostname_arg)) tr s.
Hypothesis H_loop : timeouts s <= MAX_TIMEOUTS.

Lemma main_return s1 t1 :
  iteration env incident_id (normalize hostname_arg)
            (t + timedelta_days DAYS_UNTIL_TIMEOUT) fuel s
  = (Return, s1, t1) ->
  main env fuel incident_id hostname_arg w
  = (true, world s1,
     Select (query (normalize hostname_arg)) :: tr ++ t1).
Proof.
  intros Hit.
  rewrite (main_found env fuel incident_id hostname_arg w _ _ _ _ _
                      H_now H_select).
  unfold bind.
  rewrite (loop_after_row env _ _ _ _ n
             (initial_state w2 x (normalize hostname_arg)) tr s
             eq_refl H_row H_loop).
  rewrite (retry_loop_S _ _ _ _ _ _ _ _ H_loop), Hit. reflexivity.
Qed.

Lemma main_break s1 t1 :
  iteration env incident_id (normalize hostname_arg)
            (t + timedelta_days DAYS_UNTIL_TIMEOUT) fuel s
  = (Normal Break, s1, t1) ->
  main env fuel incident_id hostname_arg w
  = (true, world s1,
     Select (query (normalize hostname_arg))
     :: tr ++ t1 ++ [FunctionResult (results s1)]).
Proof.
  intros Hit.
  rewrite (main_found env fuel incident_id hostname_arg w _ _ _ _ _
                      H_now H_select).
  unfold bind.
  rewrite (loop_after_row env _ _ _ _ n
             (initial_state w2 x (normalize hostname_arg)) tr s
             eq_refl H_row H_loop).
  rewrite (retry_loop_S _ _ _ _ _ _ _ _ H_loop), Hit.
  unfold yield_result, bind, get, emit. cbn. now rewrite <- app_assoc.
Qed.

Lemma row_hostname :
  result_hostname (results s) = Some (normalize hostname_arg).
Proof.
  destruct (row_facts _ _ _ _ _ _ _ _ _ _ H_row) as (_ & Hh & _).
  rewrite Hh. unfold initial_state; cbn [results result_hostname].
  now rewrite upper_normalize.
Qed.

End AfterTimeouts.




(** C6: when the discovery ends with no file, the function announces it,
    emits the result [was_successful = False] and ends.  Nothing is posted in
    the whole invocation, and the iteration consumes no retry: [timeouts] is
    left as it was and the only restarts are those of the earlier
    timeouts. *)
Theorem no_logs_found_fails_without_retry
        {W} (env : Env W) fuel incident_id hostname_arg w
        t w1 x l w2 n tr s x' s1 t1 s2 t2 :
  now env w = (t, w1) ->
  select env (query (normalize hostname_arg)) w1 = (Ok (x :: l), w2) ->
  timeouts_in_a_row env incident_id (normalize hostname_arg)
                    (t + timedelta_days DAYS_UNTIL_TIMEOUT) fuel n
                    (initial_state w2 x (normalize hostname_arg)) tr s ->
  timeouts s <= MAX_TIMEOUTS ->
  prepare env incident_id (normalize hostname_arg)
          (t + timedelta_days DAYS_UNTIL_TIMEOUT) fuel s
  = (Normal x', s1, t1) ->
  discover env x' s1 = (Normal [], s2, t2) ->
  main env fuel incident_id hostname_arg w
  = (true, world s2,
     Select (query (normalize hostname_arg))
     :: tr ++ t1 ++ t2
     ++ [StatusMessage
           "[FATAL ERROR] Could not find a valid AV log path with logs on Sensor!";
         FunctionResult
           (mkResults (Some false) (Some (normalize hostname_arg)))])
  /\ emitted_results (snd (main env fuel incident_id hostname_arg w))
     = [mkResults (Some false) (Some (normalize hostname_arg))]
  /\ posted_names (snd (main env fuel incident_id hostname_arg w)) = []
  /\ count is_restart (snd (main env fuel incident_id hostname_arg w)) = n
  /\ timeouts s2 = timeouts s.
Proof.
  intros Hn Hs Hrow Hle Hp Hd.
  destruct (prepare_normal W env incident_id _ _ fuel s x' s1 t1 Hp)
    as ((P1 & P2) & P3).
  destruct (discover_any W env (normalize hostname_arg) x' s1 _ s2 t2 Hd)
    as ((D1 & D2) & D3).
  pose proof (row_hostname W env fuel incident_id hostname_arg _ _ _ _ _ _
                           Hrow) as Hh.
  pose proof (attempt_no_logs W env incident_id _ _ fuel s x' s1 t1 s2 t2
                              Hp Hd) as Hatt.
  rewrite D2, P2, Hh in Hatt.
  pose proof (main_return W env fuel incident_id hostname_arg w _ _ _ _ _
                          n tr s Hn Hs Hrow Hle _ _
                          (iteration_return _ _ _ _ _ _ _ _ _ Hatt)) as Hm.
  cbn [world set_was_successful] in Hm.
  destruct (row_facts _ _ _ _ _ _ _ _ _ _ Hrow) as (_ & _ & _ & _ & Hc & _).
  destruct (row_quiet _ _ _ _ _ _ _ _ _ _ Hrow) as (Hr & Hq).
  destruct (collect_quiet _ _ P3) as (A1 & A2 & A3).
  destruct (collect_quiet _ _ D3) as (B1 & B2 & B3).
  split; [exact Hm|]. rewrite Hm. cbn [snd].
  split; [|split; [|split]].
  - unfold emitted_results in *. cbn [flat_map result_of app].
    rewrite !flat_map_app, Hr, A1, B1. reflexivity.
  - unfold posted_names in *. cbn [flat_map posted_of app].
    rewrite !flat_map_app, Hq, A2, B2. reflexivity.
  - rewrite count_cons_false by reflexivity.
    rewrite !count_app, Hc, A3, B3. cbn. lia.
  - congruence.
Qed.

Lemma no_logs_found_witness :
  emitted_results (snd (main Script.env 0 42 "host1" Script.no_logs_world))
  = [mkResults (Some false) (Some "HOST1")]
  /\ posted_names (snd (main Script.env 0 42 "host1" Script.no_logs_world))
     = [].
Proof.
  edestruct (no_logs_found_fails_without_retry
               Script.env 0 42 "host1" Script.no_logs_world)
    as (_ & H1 & H2 & _);
    [reflexivity | reflexivity | apply row_O | cbv; discriminate
     | vm_compute; reflexivity | vm_compute; reflexivity
     | exact (conj H1 H2)].
Defined.




(** ** The archive and the discovery *)

Lemma call_state {W A} e (f : W -> res A * W) (s : State W) o s' t :
  call e f s = (o, s', t) -> exists w, s' = set_world w s.
Proof.
  unfold call. destruct (f (world s)) as [[a|x] w]; intros H;
    inversion H; eauto.
Qed.

Lemma entry_name_of_log h dir f :
  PyStr.has_char PyStr.slash f = false ->
  PyStr.has_char PyStr.backslash f = false ->
  entry_name h (dir +:+ bs +:+ f) = h +:+ "-" +:+ f +:+ ".txt".
Proof.
  intros Hs Hb. unfold entry_name, PyStr.replace, bs.
  rewrite !PyStrFacts.map_string_app. cbn [PyStr.map_string append].
  rewrite Ascii.eqb_refl.
  rewrite (PyStrFacts.map_string_id _ f).
  - unfold PyStr.os_sep. now rewrite PyStrFacts.basename_after_slash.
  - intros c Hc. destruct (Ascii.eqb c PyStr.backslash) eqn:E; [|reflexivity].
    apply Ascii.eqb_eq in E. subst c. congruence.
Qed.

(** C9, as the code has it: every entry that is put into the archive is named
    [<sensor.hostname>-<base name of the remote file>.txt]: the host name of
    the sensor, a hyphen, the base name, and the suffix [.txt]. *)
Theorem archive_entries_named_host_file_txt
        {W} (env : Env W) x files zip (s : State W) zip' s' tr :
  package env x files zip s = (Normal zip', s', tr) ->
  map fst zip'
  = map fst zip ++ map (entry_name (sensor_hostname (sensor s))) files
  /\ (forall dir f,
         PyStr.has_char PyStr.slash f = false ->
         PyStr.has_char PyStr.backslash f = false ->
         entry_name (sensor_hostname (sensor s)) (dir +:+ bs +:+ f)
         = sensor_hostname (sensor s) +:+ "-" +:+ f +:+ ".txt").
Proof.
  intros H. split; [|intros; now apply entry_name_of_log].
  revert zip s tr H. induction files as [|f rest IH]; intros zip s tr H.
  - cbn in H. inversion H; subst. cbn. now rewrite app_nil_r.
  - cbn [package] in H.
    apply bind_normal in H as (s0 & s1 & t1 & r1 & H1 & H & ->).
    inversion H1; subst.
    apply bind_normal in H as (content & s2 & t2 & r2 & H2 & H & ->).
    apply call_state in H2 as (w2 & ->).
    apply bind_normal in H as (u & s3 & t3 & r3 & H3 & H & ->).
    inversion H3; subst.
    apply IH in H. rewrite H. cbn [sensor set_world map].
    rewrite map_app, <- app_assoc. reflexivity.
Qed.

Lemma archive_entries_witness :
  map fst [("HOST1-MPLog-1.log.txt", "scan")]
  = map fst (@nil (string * string))
    ++ map (entry_name "HOST1")
           ["C:\ProgramData\Microsoft\Windows Defender\Support\MPLog-1.log"].
Proof.
  exact (proj1 (archive_entries_named_host_file_txt
                  Script.env (mkSession 11)
                  ["C:\ProgramData\Microsoft\Windows Defender\Support\MPLog-1.log"]
                  []
                  (initial_state Script.one_log Script.online_sensor "HOST1")
                  [("HOST1-MPLog-1.log.txt", "scan")]
                  (initial_state Script.one_log Script.online_sensor "HOST1")
                  [GetFile 11
                     "C:\ProgramData\Microsoft\Windows Defender\Support\MPLog-1.log";
                   LogInfo
                     "[INFO] Retrieved: C:\ProgramData\Microsoft\Windows Defender\Support\MPLog-1.log"]
                  eq_refl)).
Defined.

(** The entry of [MPLog-1.log] is [HOST1-MPLog-1.log.txt]: the suffix [.txt]
    follows the file name. *)
Lemma entry_name_counterexample :
  posted_entries (snd (Script.run 0 42 "host1" Script.one_log))
  = ["HOST1-MPLog-1.log.txt"; "HOST1-MPLog-1.log.txt"]
  /\ ~ In ("HOST1" +:+ "-" +:+ "MPLog-1.log")
          (posted_entries (snd (Script.run 0 42 "host1" Script.one_log))).
Proof.
  split; [reflexivity|]. vm_compute. intros [H|[H|[]]]; discriminate.
Qed.

Lemma probe_cases {W} (env : Env W) x d fs (s : State W) :
  match list_directory env (session_id x) d (world s) with
  | (Err (Exception _ | NoMessage _ _), w1) =>
      probe env x d fs s
      = (Normal fs, set_world w1 s, [ListDirectory (session_id x) d])
  | (Err TimeoutError, w1) =>
      probe env x d fs s
      = (Raise TimeoutError, set_world w1 s,
         [ListDirectory (session_id x) d])
  | (Ok _, w1) =>
      match list_directory env (session_id x) (d +:+ bs +:+ "mplog*") w1 with
      | (Err (Exception _ | NoMessage _ _), w2) =>
          probe env x d fs s
          = (Normal fs, set_world w2 s,
             [ListDirectory (session_id x) d;
              ListDirectory (session_id x) (d +:+ bs +:+ "mplog*")])
      | (Err TimeoutError, w2) =>
          probe env x d fs s
          = (Raise TimeoutError, set_world w2 s,
             [ListDirectory (session_id x) d;
              ListDirectory (session_id x) (d +:+ bs +:+ "mplog*")])
      | (Ok listing, w2) =>
          probe env x d fs s
          = (Normal (fs ++ log_files d listing), set_world w2 s,
             [ListDirectory (session_id x) d;
              ListDirectory (session_id x) (d +:+ bs +:+ "mplog*")])
      end
  end.
Proof.
  unfold probe, try_except, try_except_else, bind, call.
  destruct (list_directory env (session_id x) d (world s))
    as [[l1|[|m1|m1 c1]] w1]; cbn [world set_world]; try reflexivity.
  destruct (list_directory env (session_id x) (d +:+ bs +:+ "mplog*") w1)
    as [[l2|[|m2|m2 c2]] w2]; reflexivity.
Qed.

Lemma probe_raise {W} (env : Env W) x d fs (s : State W) e s' t :
  probe env x d fs s = (Raise e, s', t) -> e = TimeoutError.
Proof.
  pose proof (probe_cases env x d fs s) as C.
  destruct (list_directory env (session_id x) d (world s))
    as [[l1|[|m1|m1 c1]] w1]; try (rewrite C; intros H; now inversion H).
  destruct (list_directory env (session_id x) (d +:+ bs +:+ "mplog*") w1)
    as [[l2|[|m2|m2 c2]] w2]; rewrite C; intros H; now inversion H.
Qed.

(** C10: in the discovery, for each of the two locations, an error of a
    listing that is not a timeout is absorbed: the location adds no file, the
    other location is still probed, and no exception leaves the discovery.  A
    timeout of a listing leaves the probe and the discovery at once, and the
    iteration hands it to the handler of timeouts. *)
Theorem listing_errors_absorbed_timeouts_propagate
        {W} (env : Env W) incident_id hostname days fuel x :
  (forall d fs (s : State W) e w1,
      e <> TimeoutError ->
      list_directory env (session_id x) d (world s) = (Err e, w1) ->
      probe env x d fs s
      = (Normal fs, set_world w1 s, [ListDirectory (session_id x) d]))
  /\ (forall d fs (s : State W) l1 w1 e w2,
         e <> TimeoutError ->
         list_directory env (session_id x) d (world s) = (Ok l1, w1) ->
         list_directory env (session_id x) (d +:+ bs +:+ "mplog*") w1
         = (Err e, w2) ->
         probe env x d fs s
         = (Normal fs, set_world w2 s,
            [ListDirectory (session_id x) d;
             ListDirectory (session_id x) (d +:+ bs +:+ "mplog*")]))
  /\ (forall d fs (s : State W) w1,
         list_directory env (session_id x) d (world s)
         = (Err TimeoutError, w1) ->
         probe env x d fs s
         = (Raise TimeoutError, set_world w1 s,
            [ListDirectory (session_id x) d]))
  /\ (forall d fs (s : State W) l1 w1 w2,
         list_directory env (session_id x) d (world s) = (Ok l1, w1) ->
         list_directory env (session_id x) (d +:+ bs +:+ "mplog*") w1
         = (Err TimeoutError, w2) ->
         probe env x d fs s
         = (Raise TimeoutError, set_world w2 s,
            [ListDirectory (session_id x) d;
             ListDirectory (session_id x) (d +:+ bs +:+ "mplog*")]))
  /\ (forall (s : State W) fs1 s1 t1,
         probe env x antimalware_support [] s = (Normal fs1, s1, t1) ->
         discover env x s
         = let '(o, s2, t2) := probe env x defender_support fs1 s1 in
           (o, s2, t1 ++ t2))
  /\ (forall (s : State W) s1 t1,
         probe env x antimalware_support [] s = (Raise TimeoutError, s1, t1) ->
         discover env x s = (Raise TimeoutError, s1, t1))
  /\ (forall (s : State W) e s' t,
         discover env x s = (Raise e, s', t) -> e = TimeoutError)
  /\ (forall (s : State W) s' t, discover env x s <> (Return, s', t))
  /\ (forall (s0 : State W) s1 t1 s2 t2,
         prepare env incident_id hostname days fuel s0 = (Normal x, s1, t1) ->
         discover env x s1 = (Raise TimeoutError, s2, t2) ->
         attempt env incident_id hostname days fuel s0
         = (Raise TimeoutError, s2, t1 ++ t2)
         /\ iteration env incident_id hostname days fuel s0
            = let '(o, s3, t3) := on_timeout env hostname s2 in
              (match o with
               | Normal _ => Normal Continue
               | Raise e => Raise e
               | Return => Return
               | Diverge => Diverge
               end, s3, (t1 ++ t2) ++ t3)).
Proof.
  assert (Hraise : forall (s : State W) e s' t,
             discover env x s = (Raise e, s', t) -> e = TimeoutError).
  { intros s e s' t. unfold discover, bind.
    destruct (probe env x antimalware_support [] s)
      as [[[fs1|e1| |] s1] t1] eqn:E1; try discriminate.
    - destruct (probe env x defender_support fs1 s1)
        as [[o2 s2] t2] eqn:E2.
      intros H; inversion H; subst. eapply probe_raise; exact E2.
    - intros H; inversion H; subst. eapply probe_raise; exact E1. }
  repeat split.
  - intros d fs s e w1 He H. pose proof (probe_cases env x d fs s) as C.
    rewrite H in C. destruct e; [now elim He | exact C | exact C].
  - intros d fs s l1 w1 e w2 He H1 H2.
    pose proof (probe_cases env x d fs s) as C. rewrite H1, H2 in C.
    destruct e; [now elim He | exact C | exact C].
  - intros d fs s w1 H. pose proof (probe_cases env x d fs s) as C.
    now rewrite H in C.
  - intros d fs s l1 w1 w2 H1 H2.
    pose proof (probe_cases env x d fs s) as C. now rewrite H1, H2 in C.
  - intros s fs1 s1 t1 H. unfold discover, bind. now rewrite H.
  - intros s s1 t1 H. unfold discover, bind. now rewrite H.
  - exact Hraise.
  - intros s s' t. unfold discover, bind.
    pose proof (probe_cases env x antimalware_support [] s) as C1.
    destruct (list_directory env (session_id x) antimalware_support (world s))
      as [[l1|[|m1|m1 c1]] w1];
      [destruct (list_directory env (session_id x)
                   (antimalware_support +:+ bs +:+ "mplog*") w1)
         as [[l2|[|m2|m2 c2]] w2]| | |];
      rewrite C1; try discriminate;
      match goal with
      | |- context [probe env x defender_support ?fs ?s1] =>
          pose proof (probe_cases env x defender_support fs s1) as C2;
          cbn [world set_world] in C2;
          destruct (list_directory env (session_id x) defender_support _)
            as [[l3|[|m3|m3 c3]] w3];
          [destruct (list_directory env (session_id x)
                       (defender_support +:+ bs +:+ "mplog*") w3)
             as [[l4|[|m4|m4 c4]] w4]| | |];
          rewrite C2; discriminate
      end.
  - unfold attempt, collect, bind. rewrite H, H0. reflexivity.
  - unfold iteration, try_except_else, attempt, collect, bind.
    rewrite H, H0.
    destruct (on_timeout env hostname s2) as [[[[]| | |] s3] t3];
      cbn; rewrite ?app_nil_r; reflexivity.
Qed.

Lemma listing_timeout_witness :
  exists s2 t,
    attempt Script.env 42 "HOST1" 259200 0
            (initial_state Script.stale_session Script.online_sensor "HOST1")
    = (Raise TimeoutError, s2, t).
Proof.
  destruct (listing_errors_absorbed_timeouts_propagate
              Script.env 42 "HOST1" 259200 0%nat (mkSession 11))
    as (_ & _ & _ & _ & _ & _ & _ & _ & H).
  edestruct (H (initial_state Script.stale_session Script.online_sensor
                             "HOST1")) as (H1 & _);
    [vm_compute; reflexivity | vm_compute; reflexivity
     | do 2 eexists; exact H1].
Defined.

(** ** Further properties of the function *)

(** *** The hostname *)

Lemma slice_to_length_min n s :
  String.length (PyStr.slice_to n s) = Nat.min n (String.length s).
Proof.
  revert s; induction n as [|n IH]; intros [|c s]; cbn; try reflexivity.
  now rewrite IH.
Qed.

Lemma slice_to_idem n s :
  PyStr.slice_to n (PyStr.slice_to n s) = PyStr.slice_to n s.
Proof.
  revert s; induction n as [|n IH]; intros [|c s]; cbn; try reflexivity.
  now rewrite IH.
Qed.

Lemma upper_lower_ascii c :
  PyStr.upper_ascii (PyStr.lower_ascii c) = PyStr.upper_ascii c.
Proof. destruct c as [[] [] [] [] [] [] [] []]; reflexivity. Qed.

Lemma upper_lower s : PyStr.upper (PyStr.lower s) = PyStr.upper s.
Proof.
  induction s as [|c s IH]; [reflexivity|].
  unfold PyStr.upper, PyStr.lower in *. cbn.
  now rewrite upper_lower_ascii, IH.
Qed.

Lemma upper_ascii_is_ascii c :
  (nat_of_ascii c <? 128)%nat = true ->
  (nat_of_ascii (PyStr.upper_ascii c) <? 128)%nat = true.
Proof.
  destruct c as [[] [] [] [] [] [] [] []]; intros H;
    first [reflexivity | exact H].
Qed.

Lemma lower_ascii_is_ascii c :
  (nat_of_ascii c <? 128)%nat = true ->
  (nat_of_ascii (PyStr.lower_ascii c) <? 128)%nat = true.
Proof.
  destruct c as [[] [] [] [] [] [] [] []]; intros H;
    first [reflexivity | exact H].
Qed.

Lemma map_string_is_ascii f s :
  (forall c, (nat_of_ascii c <? 128)%nat = true ->
             (nat_of_ascii (f c) <? 128)%nat = true) ->
  PyStr.is_ascii s = true -> PyStr.is_ascii (PyStr.map_string f s) = true.
Proof.
  intros Hf. induction s as [|c s IH]; [reflexivity|].
  cbn [PyStr.is_ascii PyStr.map_string].
  intros H. apply andb_true_iff in H as (Hc & Hs).
  apply andb_true_iff. split; [now apply Hf | now apply IH].
Qed.

Lemma slice_to_is_ascii n s :
  PyStr.is_ascii s = true -> PyStr.is_ascii (PyStr.slice_to n s) = true.
Proof.
  revert s; induction n as [|n IH]; intros [|c s]; try reflexivity.
  cbn [PyStr.is_ascii PyStr.slice_to].
  intros H. apply andb_true_iff in H as (Hc & Hs).
  apply andb_true_iff. split; [exact Hc | now apply IH].
Qed.

(** For a hostname of ASCII characters, the text on which [upper] and
    [lower] are the same in every version of Python: the case maps and the
    normalization keep it ASCII, the normalized hostname has at most 15
    characters (all of a shorter input), normalizing twice changes nothing,
    and the case of the input does not matter. *)
Theorem normalize_is_a_canonical_form h :
  PyStr.is_ascii h = true ->
  PyStr.is_ascii (PyStr.upper h) = true
  /\ PyStr.is_ascii (PyStr.lower h) = true
  /\ PyStr.is_ascii (normalize h) = true
  /\ String.length (normalize h) = Nat.min 15 (String.length h)
  /\ normalize (normalize h) = normalize h
  /\ normalize (PyStr.upper h) = normalize h
  /\ normalize (PyStr.lower h) = normalize h.
Proof.
  intros Ha.
  assert (Hu : PyStr.is_ascii (PyStr.upper h) = true).
  { apply map_string_is_ascii; [exact upper_ascii_is_ascii | exact Ha]. }
  split; [exact Hu|]. split; [|split; [|split; [|split; [|split]]]].
  - apply map_string_is_ascii; [exact lower_ascii_is_ascii | exact Ha].
  - unfold normalize. now apply slice_to_is_ascii.
  - unfold normalize, PyStr.upper.
    now rewrite slice_to_length_min, PyStrFacts.map_string_length.
  - rewrite (normalize_eq (normalize h)). unfold normalize at 1.
    rewrite slice_to_idem. exact (upper_normalize h).
  - unfold normalize. now rewrite PyStrFacts.upper_idem.
  - unfold normalize. now rewrite upper_lower.
Qed.

Lemma normalize_witness :
  String.length (normalize "ws-Finance-0042.corp.example.com") = 15%nat
  /\ normalize (PyStr.lower "ws-Finance-0042.corp.example.com")
     = normalize "ws-Finance-0042.corp.example.com".
Proof.
  destruct (normalize_is_a_canonical_form "ws-Finance-0042.corp.example.com")
    as (_ & _ & _ & H1 & _ & _ & H2); [reflexivity|].
  split; [exact H1 | exact H2].
Defined.

(** Two hostnames with the same first 15 characters up to case give the same
    invocation: the function reads its argument through [normalize] only. *)
Theorem invocation_depends_on_normalized_hostname
        {W} (env : Env W) fuel incident_id h1 h2 w :
  PyStr.upper (PyStr.slice_to 15 h1) = PyStr.upper (PyStr.slice_to 15 h2) ->
  main env fuel incident_id h1 w = main env fuel incident_id h2 w.
Proof.
  intros H. rewrite <- !normalize_eq in H. unfold main. now rewrite H.
Qed.

Lemma invocation_depends_on_normalized_hostname_witness :
  main Script.env 0 42 "Host1" Script.one_log
  = main Script.env 0 42 "hOST1" Script.one_log.
Proof.
  apply (invocation_depends_on_normalized_hostname
           Script.env 0 42 "Host1" "hOST1" Script.one_log).
  reflexivity.
Defined.

(** *** The wait for the sensor *)

Section Waiting.

Variable W : Type.
Variable env : Env W.
Variable hostname : string.
Variable days_later_timeout_length : Z.

Lemma wait_restart_skip n d t (s : State W) :
  (restart_queued (sensor s) && (d >=? t))%bool = false ->
  wait_restart env hostname n d t s = (Normal t, s, []).
Proof.
  intros H. destruct n; cbn [wait_restart]; unfold bind, get; rewrite H;
    reflexivity.
Qed.

Lemma wait_online_skip n t (s : State W) :
  (negb (online (sensor s)) && (days_later_timeout_length >=? t))%bool
  = false ->
  wait_online env hostname days_later_timeout_length n t s
  = (Normal t, s, []).
Proof.
  intros H. destruct n; cbn [wait_online]; unfold bind, get; rewrite H;
    reflexivity.
Qed.

(** A sensor that is Online and not queued for a restart is not waited for:
    the wait ends at once, whatever the fuel, without a sleep, a lookup or a
    notice, and leaves the locals as they were. *)
Theorem ready_sensor_is_not_waited_for fuel (s : State W) :
  online (sensor s) = true ->
  restart_queued (sensor s) = false ->
  exists w',
    availability env hostname days_later_timeout_length fuel s
    = (Normal tt, set_world w' s, []).
Proof.
  intros Hon Hrq. unfold availability, bind, call_now.
  destruct (now env (world s)) as [t1 w1]. cbn [world set_world].
  destruct (now env w1) as [t2 w2]. cbn [world set_world].
  rewrite wait_restart_skip by (cbn; now rewrite Hrq).
  unfold get at 1. cbn [sensor set_world]. rewrite Hon.
  unfold ret at 1. rewrite wait_online_skip by (cbn; now rewrite Hon).
  unfold get at 1. cbn [sensor set_world]. rewrite Hon.
  unfold ret at 1. cbn [world set_world].
  destruct (now env w2) as [t3 w3]. cbn [world set_world].
  rewrite wait_restart_skip by (cbn; now rewrite Hrq).
  exists w3. reflexivity.
Qed.

End Waiting.

Lemma ready_sensor_witness :
  exists w',
    availability Script.env "HOST1" 259200 0
                 (initial_state Script.one_log Script.online_sensor "HOST1")
    = (Normal tt,
       set_world w'
         (initial_state Script.one_log Script.online_sensor "HOST1"), []).
Proof.
  apply (ready_sensor_is_not_waited_for Script.World Script.env "HOST1"
           259200 0); reflexivity.
Defined.

Section Polling.

Variable W : Type.
Variable env : Env W.
Variable hostname : string.
Variable days_later_timeout_length : Z.

(** One round of a wait: three seconds of sleep, the clock, the sensor. *)
Lemma poll_round {A} (k : Z -> M W A) (s : State W) :
  (call_sleep env 3 ;; t <- call_now env ;; refresh_sensor env hostname ;; k t)
    s
  = let '(t1, w2) := now env (sleep env 3 (world s)) in
    match select env (query hostname) w2 with
    | (Ok (x :: _), w3) =>
        let '(o, s', tr) := k t1 (set_sensor x (set_world w3 s)) in
        (o, s', Sleep 3 :: Select (query hostname) :: tr)
    | (Ok [], w3) =>
        (Raise (Exception "list index out of range"), set_world w3 s,
         [Sleep 3; Select (query hostname)])
    | (Err e, w3) =>
        (Raise e, set_world w3 s, [Sleep 3; Select (query hostname)])
    end.
Proof.
  unfold bind, call_sleep, call_now, refresh_sensor, select_first, call,
    modify, ret, raise, bind.
  cbn [world set_world].
  destruct (now env (sleep env 3 (world s))) as [t1 w2].
  cbn [world set_world].
  destruct (select env (query hostname) w2) as [[[|x l]|e] w3];
    try reflexivity.
  cbn [world set_world sensor session timeouts results set_sensor app].
  destruct (k t1 _) as [[o s'] tr]. reflexivity.
Qed.

Lemma wait_restart_round n d t (s : State W) :
  (restart_queued (sensor s) && (d >=? t))%bool = true ->
  wait_restart env hostname (S n) d t s
  = let '(t1, w2) := now env (sleep env 3 (world s)) in
    match select env (query hostname) w2 with
    | (Ok (x :: _), w3) =>
        let '(o, s', tr) :=
          wait_restart env hostname n d t1 (set_sensor x (set_world w3 s)) in
        (o, s', Sleep 3 :: Select (query hostname) :: tr)
    | (Ok [], w3) =>
        (Raise (Exception "list index out of range"), set_world w3 s,
         [Sleep 3; Select (query hostname)])
    | (Err e, w3) =>
        (Raise e, set_world w3 s, [Sleep 3; Select (query hostname)])
    end.
Proof.
  intros C. cbn [wait_restart]. unfold bind at 1, get. rewrite C.
  rewrite poll_round.
  destruct (now env (sleep env 3 (world s))) as [t1 w2].
  destruct (select env (query hostname) w2) as [[[|x l]|e] w3];
    try reflexivity.
  destruct (wait_restart env hostname n d t1 _) as [[o s'] tr]. reflexivity.
Qed.

Lemma wait_online_round n t (s : State W) :
  (negb (online (sensor s)) && (days_later_timeout_length >=? t))%bool
  = true ->
  wait_online env hostname days_later_timeout_length (S n) t s
  = let '(t1, w2) := now env (sleep env 3 (world s)) in
    match select env (query hostname) w2 with
    | (Ok (x :: _), w3) =>
        let '(o, s', tr) :=
          wait_online env hostname days_later_timeout_length n t1
                      (set_sensor x (set_world w3 s)) in
        (o, s', Sleep 3 :: Select (query hostname) :: tr)
    | (Ok [], w3) =>
        (Raise (Exception "list index out of range"), set_world w3 s,
         [Sleep 3; Select (query hostname)])
    | (Err e, w3) =>
        (Raise e, set_world w3 s, [Sleep 3; Select (query hostname)])
    end.
Proof.
  intros C. cbn [wait_online]. unfold bind at 1, get. rewrite C.
  rewrite poll_round.
  destruct (now env (sleep env 3 (world s))) as [t1 w2].
  destruct (select env (query hostname) w2) as [[[|x l]|e] w3];
    try reflexivity.
  destruct (wait_online env hostname _ n t1 _) as [[o s'] tr]. reflexivity.
Qed.

Lemma wait_restart_out_of_fuel d t (s : State W) :
  (restart_queued (sensor s) && (d >=? t))%bool = true ->
  wait_restart env hostname O d t s = (Diverge, s, []).
Proof.
  intros C. cbn [wait_restart]. unfold bind, get. now rewrite C.
Qed.

Lemma wait_online_out_of_fuel t (s : State W) :
  (negb (online (sensor s)) && (days_later_timeout_length >=? t))%bool
  = true ->
  wait_online env hostname days_later_timeout_length O t s = (Diverge, s, []).
Proof.
  intros C. cbn [wait_online]. unfold bind, get. now rewrite C.
Qed.

End Polling.

Lemma count_cons_true f e l :
  f e = true -> count f (e :: l) = S (count f l).
Proof. unfold count; cbn. now intros ->. Qed.

Section Ticking.

Variable W : Type.
Variable env : Env W.
Variable hostname : string.
Variable days_later_timeout_length : Z.
Variable clock : W -> Z.
Hypothesis Htick : ticking env clock.

Lemma round_ticks (s : State W) t :
  t <= clock (world s) ->
  t + 3 <= fst (now env (sleep env 3 (world s)))
  /\ fst (now env (sleep env 3 (world s)))
     <= clock (snd (select env (query hostname)
                           (snd (now env (sleep env 3 (world s)))))).
Proof.
  destruct Htick as (Hnow & Hsleep & Hsel). intros Ht.
  pose proof (Hsleep 3 (world s)).
  pose proof (Hnow (sleep env 3 (world s))) as (N1 & N2).
  pose proof (Hsel (query hostname) (snd (now env (sleep env 3 (world s))))).
  lia.
Qed.

(** With a clock that ticks, the wait for a queued restart sleeps at most
    once per three seconds of what is left of its window, and once more; a
    fuel above that number is never used up; and when the wait ends, the
    restart is no longer queued or the window is over. *)
Theorem restart_wait_is_bounded n d t (s : State W) :
  t <= clock (world s) ->
  match wait_restart env hostname n d t s with
  | (o, s', tr) =>
      3 * Z.of_nat (count is_sleep tr) <= Z.max 0 (d - t + 3)
      /\ (d - t < 3 * Z.of_nat n -> o <> Diverge)
      /\ (forall t', o = Normal t' ->
                     t' <= clock (world s')
                     /\ (restart_queued (sensor s') = false \/ d < t'))
  end.
Proof.
  revert t s. induction n as [|n IH]; intros t s Ht;
    destruct (restart_queued (sensor s) && (d >=? t))%bool eqn:C.
  - rewrite wait_restart_out_of_fuel by exact C.
    apply andb_prop in C as (_ & C). apply Z.geb_le in C.
    change (count is_sleep []) with O.
    repeat split; try lia; discriminate.
  - rewrite wait_restart_skip by exact C.
    change (count is_sleep []) with O.
    repeat split; try lia; try discriminate;
      inversion H; subst; try exact Ht.
    apply andb_false_iff in C as [C|C]; [now left | right].
    rewrite Z.geb_leb in C. now apply Z.leb_gt in C.
  - rewrite wait_restart_round by exact C.
    apply andb_prop in C as (_ & C). apply Z.geb_le in C.
    pose proof (round_ticks s t Ht) as (R1 & R2).
    destruct (now env (sleep env 3 (world s))) as [t1 w2].
    cbn [fst snd] in R1, R2.
    destruct (select env (query hostname) w2) as [[[|x l]|e] w3];
      cbn [fst snd] in R2.
    + rewrite count_cons_true, count_cons_false by reflexivity.
      change (count is_sleep []) with O.
      repeat split; try lia; discriminate.
    + specialize (IH t1 (set_sensor x (set_world w3 s)) R2).
      destruct (wait_restart env hostname n d t1
                             (set_sensor x (set_world w3 s)))
        as [[o s'] tr].
      destruct IH as (I1 & I2 & I3).
      rewrite count_cons_true, count_cons_false by reflexivity.
      split; [lia|]. split; [intros Hf; apply I2; lia | exact I3].
    + rewrite count_cons_true, count_cons_false by reflexivity.
      change (count is_sleep []) with O.
      repeat split; try lia; discriminate.
  - rewrite wait_restart_skip by exact C.
    change (count is_sleep []) with O.
    repeat split; try lia; try discriminate;
      inversion H; subst; try exact Ht.
    apply andb_false_iff in C as [C|C]; [now left | right].
    rewrite Z.geb_leb in C. now apply Z.leb_gt in C.
Qed.

(** The same for the wait for the sensor to come online, against the
    deadline of three days: it ends with the sensor Online or the deadline
    behind. *)
Theorem online_wait_is_bounded n t (s : State W) :
  t <= clock (world s) ->
  match wait_online env hostname days_later_timeout_length n t s with
  | (o, s', tr) =>
      3 * Z.of_nat (count is_sleep tr)
      <= Z.max 0 (days_later_timeout_length - t + 3)
      /\ (days_later_timeout_length - t < 3 * Z.of_nat n -> o <> Diverge)
      /\ (forall t', o = Normal t' ->
                     t' <= clock (world s')
                     /\ (online (sensor s') = true
                         \/ days_later_timeout_length < t'))
  end.
Proof.
  revert t s. induction n as [|n IH]; intros t s Ht;
    destruct (negb (online (sensor s))
              && (days_later_timeout_length >=? t))%bool eqn:C.
  - rewrite wait_online_out_of_fuel by exact C.
    apply andb_prop in C as (_ & C). apply Z.geb_le in C.
    change (count is_sleep []) with O.
    repeat split; try lia; discriminate.
  - rewrite wait_online_skip by exact C.
    change (count is_sleep []) with O.
    repeat split; try lia; try discriminate;
      inversion H; subst; try exact Ht.
    apply andb_false_iff in C as [C|C]; [left | right].
    + now apply negb_false_iff in C.
    + rewrite Z.geb_leb in C. now apply Z.leb_gt in C.
  - rewrite wait_online_round by exact C.
    apply andb_prop in C as (_ & C). apply Z.geb_le in C.
    pose proof (round_ticks s t Ht) as (R1 & R2).
    destruct (now env (sleep env 3 (world s))) as [t1 w2].
    cbn [fst snd] in R1, R2.
    destruct (select env (query hostname) w2) as [[[|x l]|e] w3];
      cbn [fst snd] in R2.
    + rewrite count_cons_true, count_cons_false by reflexivity.
      change (count is_sleep []) with O.
      repeat split; try lia; discriminate.
    + specialize (IH t1 (set_sensor x (set_world w3 s)) R2).
      destruct (wait_online env hostname days_later_timeout_length n t1
                            (set_sensor x (set_world w3 s)))
        as [[o s'] tr].
      destruct IH as (I1 & I2 & I3).
      rewrite count_cons_true, count_cons_false by reflexivity.
      split; [lia|]. split; [intros Hf; apply I2; lia | exact I3].
    + rewrite count_cons_true, count_cons_false by reflexivity.
      change (count is_sleep []) with O.
      repeat split; try lia; discriminate.
  - rewrite wait_online_skip by exact C.
    change (count is_sleep []) with O.
    repeat split; try lia; try discriminate;
      inversion H; subst; try exact Ht.
    apply andb_false_iff in C as [C|C]; [left | right].
    + now apply negb_false_iff in C.
    + rewrite Z.geb_leb in C. now apply Z.leb_gt in C.
Qed.

End Ticking.

Lemma script_clock_ticks : ticking Script.env Script.clock.
Proof.
  repeat split; intros; cbn; try lia.
  destruct (Script.pop (Ok []) (Script.sensors w)); cbn; lia.
Qed.

Lemma restart_wait_witness :
  match wait_restart Script.env "HOST1" 61 180 0
                     (initial_state queued_world queued_sensor "HOST1") with
  | (o, s', tr) =>
      3 * Z.of_nat (count is_sleep tr) <= Z.max 0 (180 - 0 + 3)
      /\ (180 - 0 < 3 * Z.of_nat 61 -> o <> Diverge)
      /\ (forall t', o = Normal t' ->
                     t' <= Script.clock (world s')
                     /\ (restart_queued (sensor s') = false \/ 180 < t'))
  end.
Proof.
  apply (restart_wait_is_bounded Script.World Script.env "HOST1" Script.clock
           script_clock_ticks 61 180 0
           (initial_state queued_world queued_sensor "HOST1")).
  cbn. lia.
Defined.

Lemma online_wait_witness :
  match wait_online Script.env "HOST1" 30 11 0
                    (initial_state offline_world Script.offline_sensor
                                   "HOST1") with
  | (o, s', tr) =>
      3 * Z.of_nat (count is_sleep tr) <= Z.max 0 (30 - 0 + 3)
      /\ (30 - 0 < 3 * Z.of_nat 11 -> o <> Diverge)
      /\ (forall t', o = Normal t' ->
                     t' <= Script.clock (world s')
                     /\ (online (sensor s') = true \/ 30 < t'))
  end.
Proof.
  apply (online_wait_is_bounded Script.World Script.env "HOST1" 30
           Script.clock script_clock_ticks 11 0
           (initial_state offline_world Script.offline_sensor "HOST1")).
  cbn. lia.
Defined.

(** *** Blocks that never return, and blocks that return with a result *)

Section Returning.

Variable W : Type.

Lemma never_returns_ret {A} (a : A) : never_returns (@ret W A a).
Proof. intros s; cbn; discriminate. Qed.

Lemma never_returns_raise {A} e : never_returns (@raise W A e).
Proof. intros s; cbn; discriminate. Qed.

Lemma never_returns_diverge {A} : never_returns (@diverge W A).
Proof. intros s; cbn; discriminate. Qed.

Lemma never_returns_emit e : never_returns (@emit W e).
Proof. intros s; cbn; discriminate. Qed.

Lemma never_returns_get : never_returns (@get W).
Proof. intros s; cbn; discriminate. Qed.

Lemma never_returns_modify f : never_returns (@modify W f).
Proof. intros s; cbn; discriminate. Qed.

Lemma never_returns_call {A} e (f : W -> res A * W) :
  never_returns (call e f).
Proof.
  intros s; unfold call. destruct (f (world s)) as [[a|x] w]; cbn;
    discriminate.
Qed.

Lemma never_returns_bind {A B} (m : M W A) (f : A -> M W B) :
  never_returns m -> (forall a, never_returns (f a)) ->
  never_returns (bind m f).
Proof.
  intros Hm Hf s. unfold bind. specialize (Hm s).
  destruct (m s) as [[[a|e| |] s1] t1]; cbn in *; try discriminate;
    try congruence.
  specialize (Hf a s1). destruct (f a s1) as [[o s2] t2]. exact Hf.
Qed.

(** How a [return] gets out of a sequence. *)
Lemma bind_return {A B} (m : M W A) (f : A -> M W B) s s' t :
  bind m f s = (Return, s', t) ->
  m s = (Return, s', t)
  \/ exists a s1 t1 t2,
      m s = (Normal a, s1, t1) /\ f a s1 = (Return, s', t2)
      /\ t = t1 ++ t2.
Proof.
  unfold bind. destruct (m s) as [[[a|e| |] s1] t1]; try discriminate.
  - destruct (f a s1) as [[o2 s2] t2] eqn:E. intros H; inversion H; subst.
    right. exists a, s1, t1, t2. auto.
  - intros H; inversion H; subst. now left.
Qed.

Lemma bind_return_after {A B} (m : M W A) (f : A -> M W B) s s' t :
  never_returns m ->
  bind m f s = (Return, s', t) ->
  exists a s1 t1 t2,
    m s = (Normal a, s1, t1) /\ f a s1 = (Return, s', t2) /\ t = t1 ++ t2.
Proof.
  intros Hm H. apply bind_return in H as [H|H]; [|exact H].
  specialize (Hm s). rewrite H in Hm. now elim Hm.
Qed.

Lemma returns_plain {A} (m : M W A) :
  keeps (fun _ => True) (fun e => result_of e = [])
        (fun e => result_of e = []) m ->
  returns m.
Proof.
  intros K s. specialize (K s I). destruct (m s) as [[o s'] t].
  destruct K as (_ & K & _).
  assert (E : emitted_results t = []) by now apply flat_map_none.
  destruct o; auto.
Qed.

Lemma returns_ret {A} (a : A) : returns (@ret W A a).
Proof. intros s; reflexivity. Qed.

Lemma returns_return {A} : returns (@return_ W A).
Proof. intros s; now left. Qed.

Lemma returns_emit e : result_of e = [] -> returns (@emit W e).
Proof. intros H s; cbn. now rewrite H. Qed.

Lemma returns_modify f : returns (@modify W f).
Proof. intros s; reflexivity. Qed.

Lemma returns_bind {A B} (m : M W A) (f : A -> M W B) :
  returns m -> (forall a, returns (f a)) -> returns (bind m f).
Proof.
  intros Hm Hf s. unfold bind. specialize (Hm s).
  destruct (m s) as [[[a|e| |] s1] t1]; try exact Hm.
  specialize (Hf a s1). destruct (f a s1) as [[[b|e| |] s2] t2];
    unfold emitted_results in *;
    try (rewrite flat_map_app, Hm, Hf; reflexivity).
  destruct Hf as [Hf|(t0 & -> & Hf & Hw)].
  - left. now rewrite flat_map_app, Hm, Hf.
  - right. exists (t1 ++ t0). rewrite app_assoc.
    split; [reflexivity|]. split; [|exact Hw].
    now rewrite flat_map_app, Hm, Hf.
Qed.

Lemma returns_get_bind {B} (k : State W -> M W B) :
  (forall x, returns (k x)) -> returns (bind get k).
Proof. intros Hk. apply returns_bind; [intros s; reflexivity | exact Hk]. Qed.

Lemma returns_try_except_else {A B}
      (m : M W A) (h : exn -> M W B) (k : A -> M W B) :
  returns m -> (forall e, returns (h e)) -> (forall a, returns (k a)) ->
  returns (try_except_else m h k).
Proof.
  intros Hm Hh Hk s. unfold try_except_else. specialize (Hm s).
  destruct (m s) as [[[a|e| |] s1] t1]; try exact Hm.
  - specialize (Hk a s1). destruct (k a s1) as [[[b|e| |] s2] t2];
      unfold emitted_results in *;
      try (rewrite flat_map_app, Hm, Hk; reflexivity).
    destruct Hk as [Hk|(t0 & -> & Hk & Hw)].
    + left. now rewrite flat_map_app, Hm, Hk.
    + right. exists (t1 ++ t0). rewrite app_assoc.
      split; [reflexivity|]. split; [|exact Hw].
      now rewrite flat_map_app, Hm, Hk.
  - specialize (Hh e s1). destruct (h e s1) as [[[b|e'| |] s2] t2];
      unfold emitted_results in *;
      try (rewrite flat_map_app, Hm, Hh; reflexivity).
    destruct Hh as [Hh|(t0 & -> & Hh & Hw)].
    + left. now rewrite flat_map_app, Hm, Hh.
    + right. exists (t1 ++ t0). rewrite app_assoc.
      split; [reflexivity|]. split; [|exact Hw].
      now rewrite flat_map_app, Hm, Hh.
Qed.

(** Lines 94-96 and 139-141: the result is set to a failure, emitted, and
    the generator returns. *)
Lemma returns_abort {A} :
  returns (modify (set_was_successful false) ;; yield_result ;;
           @return_ W A).
Proof.
  intros s. cbn. right. exists []. auto.
Qed.

End Returning.

Create HintDb returns.

Section ReturningProgram.

Variable W : Type.
Variable env : Env W.
Variable incident_id : Z.
Variable hostname : string.
Variable days_later_timeout_length : Z.
Variable fuel : nat.

Ltac plain_leaf lemma :=
  apply returns_plain; apply lemma;
  try (intros; exact I); try (intros; reflexivity); try (intros; assumption).

Lemma returns_call_now : returns (call_now env).
Proof. plain_leaf keeps_call_now. Qed.

Lemma returns_wait_restart n d t :
  returns (wait_restart env hostname n d t).
Proof. plain_leaf keeps_wait_restart. Qed.

Lemma returns_wait_online n t :
  returns (wait_online env hostname days_later_timeout_length n t).
Proof. plain_leaf keeps_wait_online. Qed.

Lemma returns_verify_incident : returns (verify_incident env incident_id).
Proof. plain_leaf keeps_verify_incident. Qed.

Lemma returns_open_session : returns (open_session env).
Proof. plain_leaf keeps_open_session. Qed.

Lemma returns_discover x : returns (discover env x).
Proof. plain_leaf keeps_discover. Qed.

Lemma returns_package x fs zip : returns (package env x fs zip).
Proof. plain_leaf keeps_package. Qed.

Lemma returns_upload zip : returns (upload env incident_id zip).
Proof. plain_leaf keeps_upload. Qed.

Lemma returns_on_timeout : returns (on_timeout env hostname).
Proof. plain_leaf keeps_on_timeout. Qed.

Lemma returns_on_error err : returns (@on_error W err).
Proof. plain_leaf keeps_on_error. Qed.

Lemma returns_finish : returns (finish env).
Proof. plain_leaf keeps_finish. Qed.

Hint Resolve returns_call_now returns_wait_restart returns_wait_online
     returns_verify_incident returns_open_session returns_discover
     returns_package returns_upload returns_on_timeout returns_on_error
     returns_finish : returns.

Ltac returns_step :=
  first
    [ apply returns_abort | apply returns_ret | apply returns_return
    | apply returns_emit; reflexivity | apply returns_modify
    | solve [auto with returns]
    | apply returns_get_bind; intros ?
    | apply returns_bind; [|intros ?]
    | apply returns_try_except_else; [|intros ?|intros ?]
    | match goal with
      | |- returns (if ?b then _ else _) => destruct b
      | |- returns (match ?l with [] => _ | _ :: _ => _ end) => destruct l
      | |- returns (match ?e with
                    | TimeoutError => _
                    | Exception _ => _
                    | NoMessage _ _ => _
                    end) =>
          destruct e
      | |- returns (match ?c with Continue => _ | Break => _ end) =>
          destruct c
      end ].

Lemma returns_availability :
  returns (availability env hostname days_later_timeout_length fuel).
Proof. unfold availability. repeat returns_step. Qed.

Hint Resolve returns_availability : returns.

Lemma returns_collect :
  returns (collect env incident_id hostname days_later_timeout_length fuel).
Proof. unfold collect, prepare, no_logs. repeat returns_step. Qed.

Hint Resolve returns_collect : returns.

Lemma returns_attempt :
  returns (attempt env incident_id hostname days_later_timeout_length fuel).
Proof. unfold attempt. repeat returns_step. Qed.

Hint Resolve returns_attempt : returns.

Lemma returns_iteration :
  returns (iteration env incident_id hostname days_later_timeout_length fuel).
Proof. unfold iteration. repeat returns_step. Qed.

Hint Resolve returns_iteration : returns.

Lemma returns_retry_loop budget :
  returns (retry_loop env incident_id hostname days_later_timeout_length fuel
                      budget).
Proof.
  induction budget as [|n IH]; cbn [retry_loop]; repeat returns_step.
  intros s; reflexivity.
Qed.

Lemma never_returns_call_now : never_returns (call_now env).
Proof.
  intros s; unfold call_now. destruct (now env (world s)); cbn; discriminate.
Qed.

Lemma never_returns_call_sleep n : never_returns (call_sleep env n).
Proof. intros s; cbn; discriminate. Qed.

Lemma never_returns_refresh_sensor :
  never_returns (refresh_sensor env hostname).
Proof.
  unfold refresh_sensor, select_first.
  apply never_returns_bind; [apply never_returns_bind|].
  - apply never_returns_call.
  - intros [|x l]; [apply never_returns_raise | apply never_returns_ret].
  - intros x; apply never_returns_modify.
Qed.

Ltac never_step :=
  first
    [ apply never_returns_ret | apply never_returns_diverge
    | apply never_returns_call_now | apply never_returns_call_sleep
    | apply never_returns_refresh_sensor | apply never_returns_get
    | apply never_returns_emit
    | assumption
    | apply never_returns_bind; [|intros ?]
    | match goal with
      | |- never_returns (if ?b then _ else _) => destruct b
      end ].

Lemma never_returns_wait_restart n d t :
  never_returns (wait_restart env hostname n d t).
Proof.
  revert t; induction n as [|n IH]; intros t; cbn [wait_restart];
    repeat never_step. apply IH.
Qed.

Lemma never_returns_wait_online n t :
  never_returns (wait_online env hostname days_later_timeout_length n t).
Proof.
  revert t; induction n as [|n IH]; intros t; cbn [wait_online];
    repeat never_step. apply IH.
Qed.

End ReturningProgram.

(** *** The sensor stays offline *)

Lemma two_tail {A} (x y : list A) a b c :
  x ++ [a; b] = y ++ [c] -> y = x ++ [a] /\ b = c.
Proof.
  change (x ++ [a; b]) with (x ++ [a] ++ [b]). rewrite app_assoc.
  intros H. apply app_inj_tail in H as (H1 & H2). auto.
Qed.

Section StillOffline.

Variable W : Type.
Variable env : Env W.
Variable incident_id : Z.
Variable hostname : string.
Variable days_later_timeout_length : Z.
Variable fuel : nat.

Ltac never :=
  solve [ apply never_returns_call_now | apply never_returns_wait_restart
        | apply never_returns_wait_online | apply never_returns_get
        | match goal with
          | |- never_returns (if ?b then _ else _) =>
              destruct b; [apply never_returns_ret | apply never_returns_emit]
          end ].

Lemma availability_return (s : State W) s1 t1 :
  availability env hostname days_later_timeout_length fuel s
  = (Return, s1, t1) ->
  online (sensor s1) = false
  /\ was_successful (results s1) = Some false
  /\ exists t0,
      t1 = t0 ++ [StatusMessage ("[FATAL ERROR] Hostname: " +:+ hostname
                                 +:+ " is still offline!");
                  FunctionResult (results s1)]
      /\ emitted_results t0 = [].
Proof.
  intros H.
  pose proof (returns_availability W env hostname days_later_timeout_length
                                   fuel s) as R.
  rewrite H in R. unfold availability in H.
  apply bind_return_after in H as (a1 & x1 & u1 & r1 & _ & H & ->); [|never].
  apply bind_return_after in H as (a2 & x2 & u2 & r2 & _ & H & ->); [|never].
  apply bind_return_after in H as (a3 & x3 & u3 & r3 & _ & H & ->); [|never].
  apply bind_return_after in H as (a4 & x4 & u4 & r4 & _ & H & ->); [|never].
  apply bind_return_after in H as (a5 & x5 & u5 & r5 & _ & H & ->); [|never].
  apply bind_return_after in H as (a6 & x6 & u6 & r6 & _ & H & ->); [|never].
  apply bind_return_after in H as (a7 & x7 & u7 & r7 & H7 & H & ->); [|never].
  inversion H7; subst.
  apply bind_return in H as [H|(a8 & x8 & u8 & r8 & _ & H & _)].
  - destruct (online (sensor x7)) eqn:Hon; [discriminate|].
    cbn in H. inversion H; subst. cbn [sensor set_was_successful results].
    split; [exact Hon|]. split; [reflexivity|].
    exists (u1 ++ u2 ++ u3 ++ u4 ++ u5 ++ u6). split.
    + now rewrite !app_nil_l, <- !app_assoc.
    + destruct R as [R|(t0 & E & R & _)].
      * unfold emitted_results in R. rewrite !flat_map_app in R.
        do 7 (apply app_eq_nil in R as (_ & R)).
        cbn [flat_map result_of app] in R. discriminate.
      * rewrite !app_nil_l, !app_assoc in E.
        apply two_tail in E as (E & _). subst t0.
        unfold emitted_results in *. rewrite flat_map_app in R.
        apply app_eq_nil in R as (R & _).
        rewrite <- !app_assoc in R. exact R.
  - exfalso.
    assert (N : never_returns
                  (t <- call_now env ;;
                   wait_restart env hostname fuel (t + timedelta_minutes 3)
                                a6 ;;
                   @ret W unit tt)).
    { apply never_returns_bind; [apply never_returns_call_now|].
      intros t. apply never_returns_bind;
        [apply never_returns_wait_restart|].
      intros _. apply never_returns_ret. }
    specialize (N x8). rewrite H in N. now elim N.
Qed.

End StillOffline.

(** *** Other ways an invocation ends *)

Lemma flat_map_head {A B} (f : A -> list B) a l :
  flat_map f (a :: l) = f a ++ flat_map f l.
Proof. reflexivity. Qed.

Section OtherEndings.

Variable W : Type.
Variable env : Env W.
Variable fuel : nat.
Variable incident_id : Z.
Variable hostname_arg : string.
Variable w : W.
Variables (t : Z) (w1 : W) (x : Sensor) (l : list Sensor) (w2 : W).
Variables (n : nat) (tr : list event) (s : State W).
Hypothesis H_now : now env w = (t, w1).
Hypothesis H_select :
  select env (query (normalize hostname_arg)) w1 = (Ok (x :: l), w2).
Hypothesis H_row :
  timeouts_in_a_row env incident_id (normalize hostname_arg)
                    (t + timedelta_days DAYS_UNTIL_TIMEOUT) fuel n
                    (initial_state w2 x (normalize hostname_arg)) tr s.
Hypothesis H_loop : timeouts s <= MAX_TIMEOUTS.

Lemma main_raise e s1 t1 :
  iteration env incident_id (normalize hostname_arg)
            (t + timedelta_days DAYS_UNTIL_TIMEOUT) fuel s
  = (Raise e, s1, t1) ->
  main env fuel incident_id hostname_arg w
  = (true, world s1,
     Select (query (normalize hostname_arg)) :: (tr ++ t1) ++ [FunctionError]).
Proof.
  intros Hit.
  rewrite (main_found env fuel incident_id hostname_arg w _ _ _ _ _
                      H_now H_select).
  unfold bind.
  rewrite (loop_after_row env _ _ _ _ n
             (initial_state w2 x (normalize hostname_arg)) tr s
             eq_refl H_row H_loop).
  rewrite (retry_loop_S _ _ _ _ _ _ _ _ H_loop), Hit. reflexivity.
Qed.

(** The sensor is still offline when the wait gives up: the function says
    so, emits the result [was_successful = False] as its last event and
    ends, without a lookup of the incident, a session or an attachment. *)
Theorem sensor_still_offline_ends_in_failure s1 t1 :
  availability env (normalize hostname_arg)
               (t + timedelta_days DAYS_UNTIL_TIMEOUT) fuel s
  = (Return, s1, t1) ->
  let trace := snd (main env fuel incident_id hostname_arg w) in
  fst (fst (main env fuel incident_id hostname_arg w)) = true
  /\ online (sensor s1) = false
  /\ (exists before,
         trace
         = before
           ++ [StatusMessage ("[FATAL ERROR] Hostname: "
                              +:+ normalize hostname_arg
                              +:+ " is still offline!");
               FunctionResult
                 (mkResults (Some false) (Some (normalize hostname_arg)))])
  /\ emitted_results trace
     = [mkResults (Some false) (Some (normalize hostname_arg))]
  /\ posted_names trace = []
  /\ count is_incident t1 = 0%nat
  /\ count is_request t1 = 0%nat.
Proof.
  intros Ha trace.
  destruct (availability_return W env _ _ fuel s s1 t1 Ha)
    as (Hoff & Hws & t0 & E & Hr0).
  assert (K : keeps (same_locals s)
                    (fun e => is_incident e = false /\ is_request e = false
                              /\ posted_of e = [])
                    (fun e => is_incident e = false /\ is_request e = false
                              /\ posted_of e = [])
                    (availability env (normalize hostname_arg)
                                  (t + timedelta_days DAYS_UNTIL_TIMEOUT)
                                  fuel)).
  { apply keeps_availability; try (intros; assumption);
      try (intros; repeat split; reflexivity). }
  specialize (K s (conj eq_refl eq_refl)). rewrite Ha in K.
  destruct K as ((_ & K1) & K2 & _).
  pose proof (row_hostname W env fuel incident_id hostname_arg _ _ _ _ _ _
                           H_row) as Hh.
  assert (Hres : results s1
                 = mkResults (Some false) (Some (normalize hostname_arg))).
  { destruct (results s1) as [ws rhn]; cbn in *. congruence. }
  assert (Hatt : attempt env incident_id (normalize hostname_arg)
                         (t + timedelta_days DAYS_UNTIL_TIMEOUT) fuel s
                 = (Return, s1, t1)).
  { unfold attempt, collect, prepare, bind. now rewrite Ha. }
  pose proof (main_return W env fuel incident_id hostname_arg w _ _ _ _ _
                          n tr s H_now H_select H_row H_loop _ _
                          (iteration_return _ _ _ _ _ _ _ _ _ Hatt)) as Hm.
  destruct (row_quiet _ _ _ _ _ _ _ _ _ _ H_row) as (Hr & Hq).
  assert (P1 : posted_names t1 = []).
  { apply flat_map_none. eapply Forall_impl; [|exact K2].
    now intros a (_ & _ & H). }
  assert (C1 : count is_incident t1 = 0%nat).
  { apply count_none. eapply Forall_impl; [|exact K2]. now intros a (H & _). }
  assert (C2 : count is_request t1 = 0%nat).
  { apply count_none. eapply Forall_impl; [|exact K2].
    now intros a (_ & H & _). }
  unfold trace. rewrite Hm. cbn [fst snd].
  split; [reflexivity|]. split; [exact Hoff|].
  split; [|split; [|split; [|split]]]; try assumption.
  - exists (Select (query (normalize hostname_arg)) :: tr ++ t0).
    rewrite E, Hres. cbn [app]. now rewrite <- app_assoc.
  - rewrite E, Hres. unfold emitted_results in *.
    cbn [flat_map result_of app].
    rewrite !flat_map_app, Hr, Hr0. reflexivity.
  - unfold posted_names in *. cbn [flat_map posted_of app].
    now rewrite flat_map_app, Hq, P1.
Qed.

Lemma iteration_error e m s1 t1 :
  attempt env incident_id (normalize hostname_arg)
          (t + timedelta_days DAYS_UNTIL_TIMEOUT) fuel s
  = (Raise e, s1, t1) ->
  e = Exception m \/ (exists c, e = NoMessage m c) ->
  exists s2 t2,
    iteration env incident_id (normalize hostname_arg)
              (t + timedelta_days DAYS_UNTIL_TIMEOUT) fuel s
    = (Normal Break, s2,
       t1 ++ [StatusMessage ("[FATAL ERROR] Encountered: " +:+ m);
              StatusMessage "[FAILURE] Fatal error caused exit!"] ++ t2)
    /\ results s2 = mkResults (Some false) (result_hostname (results s1))
    /\ Forall (fun e => recovery_event (query (normalize hostname_arg)) e
                        = true) t2
    /\ count is_restart t2 = 0%nat.
Proof.
  intros H1 He. unfold iteration, try_except_else. rewrite H1.
  destruct (finish_normal W env (normalize hostname_arg)
                          (set_was_successful false s1))
    as (s2 & t2 & F & F1 & F2 & F3).
  assert (C : count is_restart t2 = 0%nat).
  { revert F. unfold finish, bind. intros F.
    pose proof (no_restart_close_session W env
                  (set_was_successful false s1)) as Hc.
    destruct (close_session env (set_was_successful false s1))
      as [[[u|e0| |] s3] t3]; try discriminate.
    specialize (Hc _ _ _ eq_refl).
    cbn in F. inversion F; subst.
    rewrite count_app, (count_none _ _ Hc). reflexivity. }
  exists s2, t2.
  destruct He as [->|(c & ->)];
    unfold on_error, bind, emit, modify; cbn; rewrite F; cbn;
    rewrite app_nil_r; auto.
Qed.

(** An exception that is not a timeout, of the text [m], ends the
    invocation: the function reports it, emits the result
    [was_successful = False] as its last event, restarts nothing and posts
    nothing. *)
Theorem other_exception_ends_in_failure e m s1 t1 :
  attempt env incident_id (normalize hostname_arg)
          (t + timedelta_days DAYS_UNTIL_TIMEOUT) fuel s
  = (Raise e, s1, t1) ->
  e = Exception m \/ (exists c, e = NoMessage m c) ->
  let trace := snd (main env fuel incident_id hostname_arg w) in
  fst (fst (main env fuel incident_id hostname_arg w)) = true
  /\ In (StatusMessage ("[FATAL ERROR] Encountered: " +:+ m)) trace
  /\ (exists before,
         trace = before
                 ++ [FunctionResult
                       (mkResults (Some false)
                                  (Some (normalize hostname_arg)))])
  /\ emitted_results trace
     = [mkResults (Some false) (Some (normalize hostname_arg))]
  /\ posted_names trace = []
  /\ count is_restart trace = n.
Proof.
  intros Ha He trace.
  destruct (attempt_raise W env incident_id _ _ fuel s _ s1 t1 Ha)
    as ((A1 & A2) & A3).
  destruct (iteration_error e m s1 t1 Ha He)
    as (s2 & t2 & Hit & R1 & R2 & R3).
  pose proof (row_hostname W env fuel incident_id hostname_arg _ _ _ _ _ _
                           H_row) as Hh.
  pose proof (main_break W env fuel incident_id hostname_arg w _ _ _ _ _
                         n tr s H_now H_select H_row H_loop _ _ Hit) as Hm.
  rewrite R1, A2, Hh in Hm.
  destruct (row_facts _ _ _ _ _ _ _ _ _ _ H_row) as (_ & _ & _ & _ & Hc & _).
  destruct (row_quiet _ _ _ _ _ _ _ _ _ _ H_row) as (Hr & Hq).
  destruct (recovery_quiet _ _ R2) as (F1 & F2).
  assert (Q : Forall (fun e => result_of e = [] /\ posted_of e = []
                               /\ is_restart e = false) t1).
  { eapply Forall_impl; [|exact A3].
    intros a Ha'. destruct a; cbn in *; try discriminate; auto.
    destruct posted; [discriminate | auto]. }
  unfold trace. rewrite Hm. cbn [fst snd].
  split; [reflexivity|]. split; [|split; [|split; [|split]]].
  - right. apply in_or_app. right. apply in_or_app. left.
    apply in_or_app. right. now left.
  - exists (Select (query (normalize hostname_arg))
            :: tr ++ t1
               ++ [StatusMessage ("[FATAL ERROR] Encountered: " +:+ m);
                   StatusMessage "[FAILURE] Fatal error caused exit!"]
               ++ t2).
    cbn [app]. now rewrite <- !app_assoc.
  - unfold emitted_results in *. rewrite flat_map_head, !flat_map_app.
    rewrite Hr, F1, (flat_map_none result_of t1); [reflexivity|].
    eapply Forall_impl; [|exact Q]. now intros a (H & _).
  - unfold posted_names in *. rewrite flat_map_head, !flat_map_app.
    rewrite Hq, F2, (flat_map_none posted_of t1); [reflexivity|].
    eapply Forall_impl; [|exact Q]. now intros a (_ & H & _).
  - rewrite count_cons_false by reflexivity.
    rewrite !count_app, Hc, R3.
    rewrite (count_none is_restart t1).
    + cbn. lia.
    + eapply Forall_impl; [|exact Q]. now intros a (_ & _ & H).
Qed.

(** An exception in the handler of a timeout itself (the sensor is no longer
    found, the restart fails) is caught by no [except] of the loop: the
    function ends with a [FunctionError] and emits no result. *)
Theorem failing_timeout_handler_ends_in_function_error e s1 t1 s2 t2 :
  attempt env incident_id (normalize hostname_arg)
          (t + timedelta_days DAYS_UNTIL_TIMEOUT) fuel s
  = (Raise TimeoutError, s1, t1) ->
  on_timeout env (normalize hostname_arg) s1 = (Raise e, s2, t2) ->
  main env fuel incident_id hostname_arg w
  = (true, world s2,
     Select (query (normalize hostname_arg))
     :: (tr ++ t1 ++ t2) ++ [FunctionError])
  /\ emitted_results (snd (main env fuel incident_id hostname_arg w)) = []
  /\ posted_names (snd (main env fuel incident_id hostname_arg w)) = [].
Proof.
  intros Ha Ht.
  assert (Hit : iteration env incident_id (normalize hostname_arg)
                          (t + timedelta_days DAYS_UNTIL_TIMEOUT) fuel s
                = (Raise e, s2, t1 ++ t2)).
  { unfold iteration, try_except_else. rewrite Ha. unfold bind.
    now rewrite Ht. }
  pose proof (main_raise _ _ _ Hit) as Hm.
  destruct (attempt_raise W env incident_id _ _ fuel s _ s1 t1 Ha)
    as (_ & A3).
  assert (K : keeps (fun _ : State W => True)
                    (fun e => recovery_event
                                (query (normalize hostname_arg)) e = true)
                    (fun e => recovery_event
                                (query (normalize hostname_arg)) e = true)
                    (on_timeout env (normalize hostname_arg))).
  { apply keeps_on_timeout; try (intros; exact I); try (intros; assumption);
      try (intros; reflexivity). apply String.eqb_refl. }
  specialize (K s1 I). rewrite Ht in K. destruct K as (_ & K & _).
  destruct (row_quiet _ _ _ _ _ _ _ _ _ _ H_row) as (Hr & Hq).
  destruct (recovery_quiet _ _ K) as (F1 & F2).
  assert (Q : Forall (fun e => result_of e = [] /\ posted_of e = []) t1).
  { eapply Forall_impl; [|exact A3].
    intros a Ha'. apply (quiet_event (normalize hostname_arg)). now left. }
  split; [exact Hm|]. rewrite Hm. cbn [snd]. split.
  - unfold emitted_results in *. rewrite flat_map_head, !flat_map_app.
    rewrite Hr, F1, (flat_map_none result_of t1); [reflexivity|].
    eapply Forall_impl; [|exact Q]. now intros a (H & _).
  - unfold posted_names in *. rewrite flat_map_head, !flat_map_app.
    rewrite Hq, F2, (flat_map_none posted_of t1); [reflexivity|].
    eapply Forall_impl; [|exact Q]. now intros a (_ & H).
Qed.

End OtherEndings.

Lemma sensor_still_offline_witness :
  emitted_results (snd (main long_sleep_env 2 42 "host1" offline_world))
  = [mkResults (Some false) (Some "HOST1")].
Proof.
  edestruct (sensor_still_offline_ends_in_failure
               Script.World long_sleep_env 2 42 "host1" offline_world)
    as (_ & _ & _ & H & _);
    [reflexivity | reflexivity | apply row_O | cbv; discriminate
     | vm_compute; reflexivity | exact H].
Defined.

Lemma other_exception_witness :
  In (StatusMessage "[FATAL ERROR] Encountered: Access is denied")
     (snd (main Script.env 0 42 "host1" unreadable_log))
  /\ emitted_results (snd (main Script.env 0 42 "host1" unreadable_log))
     = [mkResults (Some false) (Some "HOST1")].
Proof.
  edestruct (other_exception_ends_in_failure
               Script.World Script.env 0 42 "host1" unreadable_log)
    as (_ & H1 & _ & H2 & _);
    [reflexivity | reflexivity | apply row_O | cbv; discriminate
     | vm_compute; reflexivity | left; reflexivity | exact (conj H1 H2)].
Defined.

Lemma failing_timeout_handler_witness :
  emitted_results (snd (main Script.env 0 42 "host1" vanishing_sensor)) = []
  /\ count is_error (snd (main Script.env 0 42 "host1" vanishing_sensor))
     = 1%nat.
Proof.
  edestruct (failing_timeout_handler_ends_in_function_error
               Script.World Script.env 0 42 "host1" vanishing_sensor)
    as (H0 & H1 & _);
    [reflexivity | reflexivity | apply row_O | cbv; discriminate
     | vm_compute; reflexivity | vm_compute; reflexivity | ].
  split; [exact H1 | rewrite H0; reflexivity].
Defined.

(** *** The files that are grabbed *)

Lemma log_files_spec d listing p :
  In p (log_files d listing)
  <-> exists e, In e listing
                /\ PyStr.mem "DIRECTORY" (attributes e) = false
                /\ p = d +:+ bs +:+ filename e.
Proof.
  unfold log_files. rewrite in_map_iff. split.
  - intros (e & <- & He). apply filter_In in He as (He & Hd).
    exists e. repeat split; auto. now apply negb_true_iff in Hd.
  - intros (e & He & Hd & ->). exists e. split; [reflexivity|].
    apply filter_In. split; [exact He|]. now apply negb_true_iff.
Qed.

Lemma probe_files {W} (env : Env W) x d fs (s : State W) fs' s' t :
  probe env x d fs s = (Normal fs', s', t) ->
  fs' = fs
  \/ exists listing w w',
      list_directory env (session_id x) (d +:+ bs +:+ "mplog*") w
      = (Ok listing, w')
      /\ fs' = fs ++ log_files d listing.
Proof.
  pose proof (probe_cases env x d fs s) as C.
  destruct (list_directory env (session_id x) d (world s))
    as [[l1|[|m1|m1 c1]] w1]; try (rewrite C; intros H; inversion H; now left).
  destruct (list_directory env (session_id x) (d +:+ bs +:+ "mplog*") w1)
    as [[l2|[|m2|m2 c2]] w2] eqn:E; rewrite C; intros H; inversion H; subst;
    try now left.
  right. exists l2, w1, w2. auto.
Qed.

(** Every path that the discovery hands on is a file of one of the two
    support directories: an entry of a listing [<directory>\mplog*] that the
    sensor gave, without the attribute [DIRECTORY]. *)
Theorem discovered_files_are_support_logs
        {W} (env : Env W) x (s : State W) files s' t p :
  discover env x s = (Normal files, s', t) ->
  In p files ->
  exists d listing w w' e,
    (d = antimalware_support \/ d = defender_support)
    /\ list_directory env (session_id x) (d +:+ bs +:+ "mplog*") w
       = (Ok listing, w')
    /\ In e listing
    /\ PyStr.mem "DIRECTORY" (attributes e) = false
    /\ p = d +:+ bs +:+ filename e.
Proof.
  intros H Hp. unfold discover in H.
  apply bind_normal in H as (fs1 & s1 & t1 & t2 & H1 & H2 & _).
  apply probe_files in H1. apply probe_files in H2.
  assert (Hp1 : forall q, In q fs1 ->
            exists d listing w w' e,
              (d = antimalware_support \/ d = defender_support)
              /\ list_directory env (session_id x) (d +:+ bs +:+ "mplog*") w
                 = (Ok listing, w')
              /\ In e listing
              /\ PyStr.mem "DIRECTORY" (attributes e) = false
              /\ q = d +:+ bs +:+ filename e).
  { intros q Hq. destruct H1 as [->|(l1 & w & w' & E & ->)]; [now elim Hq|].
    cbn [app] in Hq. apply log_files_spec in Hq as (e & He & Hd & ->).
    exists antimalware_support, l1, w, w', e. auto 6. }
  destruct H2 as [->|(l2 & w & w' & E & ->)]; [now apply Hp1|].
  apply in_app_or in Hp as [Hp|Hp]; [now apply Hp1|].
  apply log_files_spec in Hp as (e & He & Hd & ->).
  exists defender_support, l2, w, w', e. auto 6.
Qed.

Lemma discovered_files_witness :
  exists d listing w w' e,
    (d = antimalware_support \/ d = defender_support)
    /\ list_directory Script.env 11 (d +:+ bs +:+ "mplog*") w
       = (Ok listing, w')
    /\ In e listing
    /\ PyStr.mem "DIRECTORY" (attributes e) = false
    /\ "C:\ProgramData\Microsoft\Windows Defender\Support\MPLog-1.log"
       = d +:+ bs +:+ filename e.
Proof.
  eapply (discovered_files_are_support_logs
            Script.env (mkSession 11)
            (initial_state Script.one_log Script.online_sensor "HOST1")).
  - vm_compute. reflexivity.
  - right. left. reflexivity.
Defined.

(** The archive is filled in the order of the files, one fetch per file, and
    stops at the first file that cannot be fetched: the files asked for are
    an initial part of the list, all of it when the packaging succeeds, and
    then the archive has one new entry per file. *)
Theorem package_fetches_in_order
        {W} (env : Env W) x files zip (s : State W) o s' tr :
  package env x files zip s = (o, s', tr) ->
  exists rest,
    files = fetched tr ++ rest
    /\ match o with
       | Normal zip' =>
           rest = []
           /\ List.length zip' = (List.length zip + List.length files)%nat
       | Raise _ => fetched tr <> []
       | Return | Diverge => False
       end.
Proof.
  revert zip s o s' tr. induction files as [|f rest IH];
    intros zip s o s' tr H.
  - cbn in H. inversion H; subst. exists []. cbn. auto.
  - cbn [package] in H. unfold bind at 1, get in H. cbn [app] in H.
    unfold bind at 1, call at 1 in H.
    destruct (get_file env (session_id x) f (world s)) as [[content|e] w].
    + unfold bind at 1, emit at 1 in H.
      destruct (package env x rest
                        (zip ++ [(entry_name (sensor_hostname (sensor s)) f,
                                  content)]) (set_world w s))
        as [[o2 s2] t2] eqn:E.
      apply IH in E as (rest' & E1 & E2).
      inversion H; subst o s' tr. exists rest'. split.
      * cbn. now rewrite <- E1.
      * destruct o2 as [zip'| | |]; try exact E2.
        -- destruct E2 as (-> & E2). split; [reflexivity|].
           rewrite E2, length_app. cbn. lia.
        -- cbn. discriminate.
    + inversion H; subst. exists rest. split; [reflexivity|].
      cbn. discriminate.
Qed.

Lemma package_fetches_witness :
  exists rest,
    ["C:\ProgramData\Microsoft\Windows Defender\Support\MPLog-1.log"]
    = fetched [GetFile 11
                 "C:\ProgramData\Microsoft\Windows Defender\Support\MPLog-1.log"]
      ++ rest
    /\ fetched [GetFile 11
                  "C:\ProgramData\Microsoft\Windows Defender\Support\MPLog-1.log"]
       <> [].
Proof.
  apply (package_fetches_in_order
           Script.env (mkSession 11)
           ["C:\ProgramData\Microsoft\Windows Defender\Support\MPLog-1.log"]
           []
           (initial_state unreadable_log Script.online_sensor "HOST1")
           (Raise (Exception "Access is denied"))
           (initial_state unreadable_log Script.online_sensor "HOST1")
           [GetFile 11
              "C:\ProgramData\Microsoft\Windows Defender\Support\MPLog-1.log"]).
  reflexivity.
Defined.

(** A file of the same name in both support directories gets the same entry
    name twice: the archive then holds two entries of one name. *)
Theorem same_name_in_both_locations_collides h f :
  PyStr.has_char PyStr.slash f = false ->
  PyStr.has_char PyStr.backslash f = false ->
  entry_name h (antimalware_support +:+ bs +:+ f)
  = entry_name h (defender_support +:+ bs +:+ f).
Proof. intros Hs Hb. now rewrite !entry_name_of_log. Qed.

Lemma same_name_collides_witness :
  entry_name "HOST1" (antimalware_support +:+ bs +:+ "MPLog-1.log")
  = entry_name "HOST1" (defender_support +:+ bs +:+ "MPLog-1.log").
Proof.
  apply (same_name_in_both_locations_collides "HOST1" "MPLog-1.log");
    reflexivity.
Defined.

(** *** The handler of a timeout *)

Lemma close_session_eq {W} (env : Env W) (s : State W) :
  close_session env s
  = match session s with
    | None => (Normal tt, s, [])
    | Some x =>
        (Normal tt, set_world (snd (close env (session_id x) (world s))) s,
         [Close (session_id x)])
    end.
Proof.
  unfold close_session, try_except, try_except_else, bind, get, call, ret.
  destruct (session s) as [x|]; [|reflexivity]. cbn [world].
  destruct (close env (session_id x) (world s)) as [[[]|e] w]; reflexivity.
Qed.

Lemma refresh_sensor_normal {W} (env : Env W) hostname (s : State W) a s' t :
  refresh_sensor env hostname s = (Normal a, s', t) ->
  exists x l w,
    select env (query hostname) (world s) = (Ok (x :: l), w)
    /\ s' = set_sensor x (set_world w s)
    /\ t = [Select (query hostname)].
Proof.
  unfold refresh_sensor, select_first, bind, call, modify, ret, raise.
  destruct (select env (query hostname) (world s)) as [[[|x l]|e] w];
    cbn; intros H; inversion H; subst. eauto 6.
Qed.

Lemma call_normal {W A} e (f : W -> res A * W) (s : State W) a s' t :
  call e f s = (Normal a, s', t) ->
  exists w, f (world s) = (Ok a, w) /\ s' = set_world w s /\ t = [e].
Proof.
  unfold call. destruct (f (world s)) as [[a'|x] w];
    intros H; inversion H; subst. eauto.
Qed.

(** When the handler of a timeout gets through, it has done this, in this
    order: the notice ([k/3] up to the third timeout, the two fatal notices
    after it), the close of the session that [session] names, if any, a
    lookup of the sensor, the restart of the sensor that this lookup gave
    first, 30 seconds of sleep and a second lookup, whose first sensor is
    the [sensor] of the next iteration.  [timeouts] is one more, [session]
    still names the closed session, and [results] is marked as failed after
    the last timeout only. *)
Theorem timeout_handler_runs_in_order
        {W} (env : Env W) hostname (s : State W) s' t :
  on_timeout env hostname s = (Normal tt, s', t) ->
  let w0 := match session s with
            | Some x => snd (close env (session_id x) (world s))
            | None => world s
            end in
  exists x1 l1 w1 w2 x2 l2,
    select env (query hostname) w0 = (Ok (x1 :: l1), w1)
    /\ restart_sensor env (sensor_id x1) w1 = (Ok tt, w2)
    /\ select env (query hostname) (sleep env 30 w2)
       = (Ok (x2 :: l2), world s')
    /\ t = (if timeouts s + 1 <=? MAX_TIMEOUTS
            then [StatusMessage
                    ("[ERROR] TimeoutError was encountered. Reattempting... ("
                     +:+ PyStr.str (timeouts s + 1) +:+ "/3)")]
            else [StatusMessage
                    "[FATAL ERROR] TimeoutError was encountered. The maximum number of retries was reached. Aborting!";
                  StatusMessage "[FAILURE] Fatal error caused exit!"])
           ++ match session s with
              | Some x => [Close (session_id x)]
              | None => []
              end
           ++ [Select (query hostname); RestartSensor (sensor_id x1);
               Sleep 30; Select (query hostname)]
    /\ sensor s' = x2
    /\ session s' = session s
    /\ timeouts s' = timeouts s + 1
    /\ results s'
       = (if timeouts s + 1 <=? MAX_TIMEOUTS then results s
          else mkResults (Some false) (result_hostname (results s))).
Proof.
  intros H w0. unfold on_timeout in H.
  apply bind_normal in H as ([] & s0 & t0 & tr & H0 & H & ->).
  rewrite note_timeout_eq in H0.
  assert (E0 : session s0 = session s /\ timeouts s0 = timeouts s + 1
               /\ world s0 = world s
               /\ results s0
                  = (if timeouts s + 1 <=? MAX_TIMEOUTS then results s
                     else mkResults (Some false)
                                    (result_hostname (results s)))
               /\ t0 = if timeouts s + 1 <=? MAX_TIMEOUTS
                       then [StatusMessage
                               ("[ERROR] TimeoutError was encountered. Reattempting... ("
                                +:+ PyStr.str (timeouts s + 1) +:+ "/3)")]
                       else [StatusMessage
                               "[FATAL ERROR] TimeoutError was encountered. The maximum number of retries was reached. Aborting!";
                             StatusMessage
                               "[FAILURE] Fatal error caused exit!"]).
  { destruct (timeouts s + 1 <=? MAX_TIMEOUTS); inversion H0; subst;
      repeat split; auto. }
  destruct E0 as (Es & Et & Ew & Er & ->). clear H0.
  unfold recover in H.
  apply bind_normal in H as (a1 & s1 & t1 & r1 & H1 & H & ->).
  apply bind_normal in H as (a2 & s2 & t2 & r2 & H2 & H & ->).
  apply bind_normal in H as (a3 & s3 & t3 & r3 & H3 & H & ->).
  apply bind_normal in H as (a4 & s4 & t4 & r4 & H4 & H & ->).
  apply bind_normal in H as (a5 & s5 & t5 & r5 & H5 & H & ->).
  rewrite close_session_eq in H1.
  apply refresh_sensor_normal in H2 as (x1 & l1 & w2 & S1 & -> & ->).
  inversion H3; subst a3 s3 t3.
  apply call_normal in H4 as (w4 & R4 & -> & ->).
  inversion H5; subst a5 s5 t5.
  apply refresh_sensor_normal in H as (x2 & l2 & w6 & S2 & -> & ->).
  cbn [world sensor set_world set_sensor] in R4, S2.
  destruct a4.
  exists x1, l1, w2, w4, x2, l2.
  cbn [session timeouts sensor world results set_world set_sensor].
  assert (Hw : world s1 = w0 /\ session s1 = session s
               /\ timeouts s1 = timeouts s + 1
               /\ results s1 = results s0
               /\ t1 = match session s with
                       | Some x => [Close (session_id x)]
                       | None => []
                       end).
  { subst w0. rewrite <- Es, <- Ew.
    destruct (session s0) as [x|] eqn:Ess; inversion H1; subst;
      cbn [session timeouts world results set_world]; auto. }
  destruct Hw as (Hw & Hs1 & Ht1 & Hr1 & ->).
  rewrite Hw in S1. rewrite Hr1, Er.
  repeat split; auto.
Qed.

Lemma timeout_handler_witness :
  exists x1 l1 w1,
    select Script.env (query "HOST1") Script.always_timeout
    = (Ok (x1 :: l1), w1)
    /\ [StatusMessage
          "[ERROR] TimeoutError was encountered. Reattempting... (1/3)";
        Select "hostname:HOST1"; RestartSensor 7; Sleep 30;
        Select "hostname:HOST1"]
       = [StatusMessage
            ("[ERROR] TimeoutError was encountered. Reattempting... ("
             +:+ PyStr.str (0 + 1) +:+ "/3)")]
         ++ []
         ++ [Select (query "HOST1"); RestartSensor (sensor_id x1); Sleep 30;
             Select (query "HOST1")].
Proof.
  destruct (timeout_handler_runs_in_order
              Script.env "HOST1"
              (initial_state Script.always_timeout Script.online_sensor
                             "HOST1")
              (set_timeouts 1
                 (initial_state
                    (Script.mkWorld 30 [Ok [Script.online_sensor]] []
                                    [Err TimeoutError] [] [] [] [] [])
                    Script.online_sensor "HOST1"))
              [StatusMessage
                 "[ERROR] TimeoutError was encountered. Reattempting... (1/3)";
               Select "hostname:HOST1"; RestartSensor 7; Sleep 30;
               Select "hostname:HOST1"]
              eq_refl) as (x1 & l1 & w1 & w2 & x2 & l2 & H1 & _ & _ & H & _).
  exists x1, l1, w1. split; [exact H1 | exact H].
Defined.

(** *** Every run *)

Section EveryRun.

Variable W : Type.
Variable env : Env W.
Variable incident_id : Z.
Variable hostname : string.
Variable days_later_timeout_length : Z.
Variable fuel : nat.

Lemma collect_event_unposted e :
  collect_event (query hostname) e = true -> is_posted e = false.
Proof. destruct e; cbn; congruence. Qed.

Lemma recovery_event_unposted e :
  recovery_event (query hostname) e = true -> is_posted e = false.
Proof. destruct e; cbn; congruence. Qed.

(** An iteration that does not fall through has posted nothing. *)
Lemma attempt_unposted (s : State W) o s' t :
  attempt env incident_id hostname days_later_timeout_length fuel s
  = (o, s', t) ->
  (forall a, o <> Normal a) ->
  same_locals s s' /\ count is_posted t = 0%nat.
Proof.
  unfold attempt, bind. intros H Hn.
  assert (K : keeps (same_locals s)
                    (fun e => is_posted e = false)
                    (fun e => is_posted e = false)
                    (collect env incident_id hostname
                             days_later_timeout_length fuel)).
  { apply keeps_collect; try (intros; assumption);
      try (intros; reflexivity). }
  specialize (K s (conj eq_refl eq_refl)).
  destruct (collect env incident_id hostname days_later_timeout_length
                    fuel s) as [[o1 s1] t1].
  destruct K as (K1 & K2 & _).
  destruct o1 as [zip|e1| |].
  - revert H. unfold upload, bind, get, call_post_attachment.
    destruct (post_attachment env _ zip _ (world s1)) as [[u|x] w];
      cbn; intros H; inversion H; subst.
    + now elim (Hn tt).
    + split; [exact K1|]. rewrite count_app, (count_none _ _ K2).
      reflexivity.
  - inversion H; subst. split; [exact K1 | now apply count_none].
  - inversion H; subst. split; [exact K1 | now apply count_none].
  - inversion H; subst. split; [exact K1 | now apply count_none].
Qed.

Lemma on_timeout_any (s : State W) o s' t :
  on_timeout env hostname s = (o, s', t) ->
  result_hostname (results s') = result_hostname (results s)
  /\ Forall (fun e => recovery_event (query hostname) e = true) t.
Proof.
  intros H.
  assert (K : keeps (fun x : State W =>
                       result_hostname (results x)
                       = result_hostname (results s))
                    (fun e => recovery_event (query hostname) e = true)
                    (fun e => recovery_event (query hostname) e = true)
                    (on_timeout env hostname)).
  { apply keeps_on_timeout; try (intros; assumption);
      try (intros; reflexivity). apply String.eqb_refl. }
  specialize (K s eq_refl). rewrite H in K. destruct K as (K1 & K2 & _).
  auto.
Qed.

Lemma iteration_outcomes (s : State W) o s' t :
  iteration env incident_id hostname days_later_timeout_length fuel s
  = (o, s', t) ->
  result_hostname (results s') = result_hostname (results s)
  /\ match o with
     | Normal Continue =>
         count is_posted t = 0%nat
         /\ (timeouts s' <= MAX_TIMEOUTS
             \/ was_successful (results s') = Some false)
     | Normal Break =>
         (count is_posted t = 0%nat
          /\ was_successful (results s') = Some false)
         \/ (count is_posted t = 1%nat
             /\ was_successful (results s') = Some true)
     | _ => count is_posted t = 0%nat
     end.
Proof.
  unfold iteration, try_except_else.
  destruct (attempt env incident_id hostname days_later_timeout_length fuel s)
    as [[[a|[|m|m c]| |] s1] t1] eqn:Ha.
  - destruct (attempt_normal _ _ _ _ _ _ _ _ _ _ Ha)
      as ((A1 & A2) & t0 & zip & A3 & ->).
    destruct (finish_normal W env hostname (set_was_successful true s1))
      as (s2 & t2 & F & F1 & F2 & F3).
    unfold bind, modify. rewrite F. cbn. intros H; inversion H; subst.
    rewrite F1. cbn [results result_hostname was_successful
                     set_was_successful].
    split; [exact A2|]. right. split; [|reflexivity].
    rewrite app_nil_r, !count_app.
    rewrite (count_none is_posted t0), (count_none is_posted t2).
    + reflexivity.
    + eapply Forall_impl; [|exact F3]. apply recovery_event_unposted.
    + eapply Forall_impl; [|exact A3]. apply collect_event_unposted.
  - destruct (attempt_unposted _ _ _ _ Ha) as ((A1 & A2) & A3);
      [discriminate|].
    unfold bind.
    destruct (on_timeout env hostname s1) as [[o2 s2] t2] eqn:Ht.
    destruct (on_timeout_any _ _ _ _ Ht) as (T1 & T2).
    assert (C : count is_posted (t1 ++ t2) = 0%nat).
    { rewrite count_app, A3, (count_none is_posted t2); [reflexivity|].
      eapply Forall_impl; [|exact T2]. apply recovery_event_unposted. }
    destruct o2 as [[]| | |]; cbn; intros H; inversion H; subst;
      rewrite ?app_nil_r; (split; [congruence|]); try exact C.
    split; [exact C|].
    destruct (on_timeout_normal _ _ _ _ _ _ Ht) as (_ & _ & T3 & _).
    destruct (Z.le_gt_cases (timeouts s') MAX_TIMEOUTS); [now left|].
    right. apply T3. lia.
  - destruct (attempt_unposted _ _ _ _ Ha) as ((A1 & A2) & A3);
      [discriminate|].
    destruct (finish_normal W env hostname (set_was_successful false s1))
      as (s2 & t2 & F & F1 & F2 & F3).
    unfold on_error, bind, emit, modify. cbn. rewrite F. cbn.
    intros H; inversion H; subst. rewrite F1.
    cbn [results result_hostname was_successful set_was_successful].
    split; [exact A2|]. left. split; [|reflexivity].
    rewrite app_nil_r, count_app, A3.
    rewrite !count_cons_false by reflexivity.
    apply count_none. eapply Forall_impl; [|exact F3].
    apply recovery_event_unposted.
  - destruct (attempt_unposted _ _ _ _ Ha) as ((A1 & A2) & A3);
      [discriminate|].
    destruct (finish_normal W env hostname (set_was_successful false s1))
      as (s2 & t2 & F & F1 & F2 & F3).
    unfold on_error, bind, emit, modify. cbn. rewrite F. cbn.
    intros H; inversion H; subst. rewrite F1.
    cbn [results result_hostname was_successful set_was_successful].
    split; [exact A2|]. left. split; [|reflexivity].
    rewrite app_nil_r, count_app, A3.
    rewrite !count_cons_false by reflexivity.
    apply count_none. eapply Forall_impl; [|exact F3].
    apply recovery_event_unposted.
  - intros H; inversion H; subst.
    destruct (attempt_unposted _ _ _ _ Ha) as ((A1 & A2) & A3);
      [discriminate | auto].
  - intros H; inversion H; subst.
    destruct (attempt_unposted _ _ _ _ Ha) as ((A1 & A2) & A3);
      [discriminate | auto].
Qed.

Lemma retry_loop_outcomes budget :
  forall (s : State W) o s' t,
    timeouts s <= MAX_TIMEOUTS \/ was_successful (results s) = Some false ->
    retry_loop env incident_id hostname days_later_timeout_length fuel
               budget s = (o, s', t) ->
    result_hostname (results s') = result_hostname (results s)
    /\ match o with
       | Normal _ =>
           (count is_posted t = 0%nat
            /\ was_successful (results s') = Some false)
           \/ (count is_posted t = 1%nat
               /\ was_successful (results s') = Some true)
       | _ => count is_posted t = 0%nat
       end.
Proof.
  induction budget as [|k IH]; intros s o s' t G H;
    destruct (Z.le_gt_cases (timeouts s) MAX_TIMEOUTS) as [Hle|Hgt].
  - cbn [retry_loop] in H. unfold bind, get in H.
    apply Z.leb_le in Hle. rewrite Hle in H. inversion H; subst. auto.
  - rewrite retry_loop_exit in H by exact Hgt. inversion H; subst.
    split; [reflexivity|]. left. split; [reflexivity|].
    destruct G as [G|G]; [lia | exact G].
  - rewrite (retry_loop_S _ _ _ _ _ _ _ _ Hle) in H.
    destruct (iteration env incident_id hostname days_later_timeout_length
                        fuel s) as [[o1 s1] t1] eqn:Hit.
    apply iteration_outcomes in Hit as (I1 & I2).
    destruct o1 as [[|]| | |]; try (inversion H; subst; auto; fail).
    destruct I2 as (I2 & G1).
    destruct (retry_loop env incident_id hostname days_later_timeout_length
                         fuel k s1) as [[o2 s2] t2] eqn:E.
    apply (IH _ _ _ _ G1) in E as (E1 & E2).
    inversion H; subst. split; [congruence|].
    rewrite count_app, I2. exact E2.
  - rewrite retry_loop_exit in H by exact Hgt. inversion H; subst.
    split; [reflexivity|]. left. split; [reflexivity|].
    destruct G as [G|G]; [lia | exact G].
Qed.

Lemma terminal_none t :
  emitted_results t = [] -> Forall (fun e => is_error e = false) t ->
  count is_terminal t = 0%nat.
Proof.
  intros Hr He. apply count_none.
  induction He as [|e t He _ IH]; constructor.
  - unfold is_terminal. rewrite He. destruct e; cbn in *; try reflexivity.
    discriminate.
  - apply IH. unfold emitted_results in *. cbn in Hr.
    now apply app_eq_nil in Hr.
Qed.

Lemma retry_loop_no_error budget (s : State W) :
  Forall (fun e => is_error e = false)
         (snd (retry_loop env incident_id hostname days_later_timeout_length
                          fuel budget s)).
Proof.
  assert (K : keeps (fun _ : State W => True)
                    (fun e => is_error e = false)
                    (fun e => is_error e = false)
                    (retry_loop env incident_id hostname
                                days_later_timeout_length fuel budget)).
  { apply keeps_retry_loop; try (intros; assumption);
      try (intros; reflexivity); try (intros; exact I). }
  specialize (K s I).
  destruct (retry_loop env incident_id hostname days_later_timeout_length
                       fuel budget s) as [[o s'] t].
  now destruct K as (_ & K & _).
Qed.

End EveryRun.

(** Whatever the world does, the function posts at most one attachment, and
    a result it emits tells whether it did: [was_successful] is [True]
    exactly when an attachment was posted.  Once the attachment is posted
    nothing can fail any more: the invocation ends with the one result of
    success. *)
Theorem success_means_an_attachment_was_posted
        {W} (env : Env W) fuel incident_id hostname_arg w :
  let trace := snd (main env fuel incident_id hostname_arg w) in
  (count is_posted trace <= 1)%nat
  /\ (forall r, In r (emitted_results trace) ->
                was_successful r = Some (count is_posted trace =? 1)%nat)
  /\ (count is_posted trace = 1%nat ->
      fst (fst (main env fuel incident_id hostname_arg w)) = true
      /\ emitted_results trace
         = [mkResults (Some true) (Some (normalize hostname_arg))]).
Proof.
  unfold main. destruct (now env w) as [t w1].
  destruct (select env (query (normalize hostname_arg)) w1)
    as [[[|x l]|e] w2]; cbn [snd fst].
  - cbn. repeat split; try lia; try discriminate.
    intros r [<-|[]]. reflexivity.
  - unfold bind.
    pose proof (returns_retry_loop W env incident_id (normalize hostname_arg)
                  (t + timedelta_days DAYS_UNTIL_TIMEOUT) fuel retry_budget
                  (initial_state w2 x (normalize hostname_arg))) as R.
    destruct (retry_loop env incident_id (normalize hostname_arg)
                         (t + timedelta_days DAYS_UNTIL_TIMEOUT) fuel
                         retry_budget
                         (initial_state w2 x (normalize hostname_arg)))
      as [[o s] tr] eqn:E.
    apply retry_loop_outcomes in E as (E1 & E2);
      [|left; cbn; unfold MAX_TIMEOUTS; lia].
    unfold initial_state in E1. cbn [results result_hostname] in E1.
    rewrite upper_normalize in E1.
    destruct o as [[]|e| |]; cbn [snd fst].
    + unfold yield_result, bind, get, emit. cbn [snd fst app].
      rewrite count_cons_false by reflexivity.
      rewrite count_app, count_cons_false by reflexivity.
      change (count is_posted []) with O. rewrite Nat.add_0_r.
      unfold emitted_results in *. rewrite flat_map_head, flat_map_app.
      rewrite R. cbn [result_of flat_map app].
      destruct E2 as [(C & Ws)|(C & Ws)]; rewrite C.
      * repeat split; try lia; try discriminate.
        intros r [<-|[]]. exact Ws.
      * repeat split; try lia.
        -- intros r [<-|[]]. exact Ws.
        -- destruct (results s) as [ws rh]; cbn in *. congruence.
    + rewrite count_cons_false by reflexivity.
      rewrite count_app, E2. cbn [count filter is_posted length plus].
      unfold emitted_results in *. rewrite flat_map_head, flat_map_app.
      rewrite R. cbn. repeat split; try lia; try discriminate.
    + rewrite count_cons_false by reflexivity. rewrite E2.
      repeat split; try lia; try discriminate.
      unfold emitted_results in *. rewrite flat_map_head.
      cbn [result_of app].
      destruct R as [R|(t0 & -> & R & Ws)].
      * rewrite R. intros r [].
      * rewrite flat_map_app, R. cbn. intros r [<-|[]]. exact Ws.
    + rewrite count_cons_false by reflexivity. rewrite E2.
      repeat split; try lia; try discriminate.
      unfold emitted_results in *. rewrite flat_map_head, R.
      intros r [].
  - cbn. repeat split; try lia; try discriminate.
Qed.

(** Whatever the world does, the function says its last word at most once: a
    trace has no [FunctionResult] and no [FunctionError], or exactly one of
    them, and then as its last event. *)
Theorem at_most_one_last_word
        {W} (env : Env W) fuel incident_id hostname_arg w :
  let trace := snd (main env fuel incident_id hostname_arg w) in
  count is_terminal trace = 0%nat
  \/ exists before e,
      trace = before ++ [e]
      /\ is_terminal e = true
      /\ count is_terminal before = 0%nat.
Proof.
  unfold main. destruct (now env w) as [t w1].
  destruct (select env (query (normalize hostname_arg)) w1)
    as [[[|x l]|e] w2]; cbn [snd fst].
  - right.
    exists [Select (query (normalize hostname_arg));
            StatusMessage ("[FATAL ERROR] CB could not find hostname: "
                           +:+ normalize hostname_arg)],
           (FunctionResult (mkResults (Some false) None)).
    repeat split.
  - unfold bind.
    pose proof (returns_retry_loop W env incident_id (normalize hostname_arg)
                  (t + timedelta_days DAYS_UNTIL_TIMEOUT) fuel retry_budget
                  (initial_state w2 x (normalize hostname_arg))) as R.
    pose proof (retry_loop_no_error W env incident_id
                  (normalize hostname_arg)
                  (t + timedelta_days DAYS_UNTIL_TIMEOUT) fuel retry_budget
                  (initial_state w2 x (normalize hostname_arg))) as N.
    destruct (retry_loop env incident_id (normalize hostname_arg)
                         (t + timedelta_days DAYS_UNTIL_TIMEOUT) fuel
                         retry_budget
                         (initial_state w2 x (normalize hostname_arg)))
      as [[o s] tr].
    cbn [snd] in N.
    destruct o as [[]|e| |]; cbn [snd fst].
    + right. unfold yield_result, bind, get, emit. cbn [snd fst app].
      exists (Select (query (normalize hostname_arg)) :: tr),
             (FunctionResult (results s)).
      repeat split. rewrite count_cons_false by reflexivity.
      now apply terminal_none.
    + right.
      exists (Select (query (normalize hostname_arg)) :: tr), FunctionError.
      repeat split. rewrite count_cons_false by reflexivity.
      now apply terminal_none.
    + destruct R as [R|(t0 & -> & R & Ws)].
      * left. rewrite count_cons_false by reflexivity.
        now apply terminal_none.
      * right.
        exists (Select (query (normalize hostname_arg)) :: t0),
               (FunctionResult (results s)).
        repeat split. rewrite count_cons_false by reflexivity.
        apply terminal_none; [exact R|].
        apply Forall_app in N. apply N.
    + left. rewrite count_cons_false by reflexivity.
      now apply terminal_none.
  - right. exists [Select (query (normalize hostname_arg))], FunctionError.
    repeat split.
Qed.

(** *** How often the function calls out *)

Section Counting.

Variable W : Type.
Variable f : event -> bool.

Lemma at_most_weaken {A} n n' (m : M W A) :
  at_most f n m -> (n <= n')%nat -> at_most f n' m.
Proof. intros H Hn s. specialize (H s). lia. Qed.

Lemma at_most_ret {A} (a : A) : at_most f 0 (@ret W A a).
Proof. intros s; cbn; lia. Qed.

Lemma at_most_raise {A} e : at_most f 0 (@raise W A e).
Proof. intros s; cbn; lia. Qed.

Lemma at_most_return {A} : at_most f 0 (@return_ W A).
Proof. intros s; cbn; lia. Qed.

Lemma at_most_modify g : at_most f 0 (@modify W g).
Proof. intros s; cbn; lia. Qed.

Lemma at_most_emit n e :
  f e = false \/ (1 <= n)%nat -> at_most f n (@emit W e).
Proof.
  intros H s. cbn. unfold count. cbn.
  destruct (f e); cbn; [destruct H; [discriminate | lia] | lia].
Qed.

Lemma at_most_call {A} n e (k : W -> res A * W) :
  f e = false \/ (1 <= n)%nat -> at_most f n (call e k).
Proof.
  intros H s. unfold call.
  destruct (k (world s)) as [[a|x] w]; cbn; unfold count; cbn;
    (destruct (f e); cbn; [destruct H; [discriminate | lia] | lia]).
Qed.

Lemma at_most_bind {A B} a b (m : M W A) (k : A -> M W B) :
  at_most f a m -> (forall x, at_most f b (k x)) ->
  at_most f (a + b) (bind m k).
Proof.
  intros Hm Hk s. unfold bind. specialize (Hm s).
  destruct (m s) as [[[x|e| |] s1] t1]; cbn [snd] in *; try lia.
  specialize (Hk x s1). destruct (k x s1) as [[o s2] t2]. cbn [snd] in *.
  rewrite count_app. lia.
Qed.

Lemma at_most_get_bind {B} b (k : State W -> M W B) :
  (forall x, at_most f b (k x)) -> at_most f b (bind get k).
Proof.
  intros Hk. apply (at_most_bind 0 b); [intros s; cbn; lia | exact Hk].
Qed.

Lemma at_most_try_except_else {A B} a b
      (m : M W A) (h : exn -> M W B) (k : A -> M W B) :
  at_most f a m -> (forall e, at_most f b (h e)) ->
  (forall x, at_most f b (k x)) ->
  at_most f (a + b) (try_except_else m h k).
Proof.
  intros Hm Hh Hk s. unfold try_except_else. specialize (Hm s).
  destruct (m s) as [[[x|e| |] s1] t1]; cbn [snd] in *; try lia.
  - specialize (Hk x s1). destruct (k x s1) as [[o s2] t2]. cbn [snd] in *.
    rewrite count_app. lia.
  - specialize (Hh e s1). destruct (h e s1) as [[o s2] t2]. cbn [snd] in *.
    rewrite count_app. lia.
Qed.

Lemma at_most_none {A} (m : M W A) :
  keeps (fun _ => True) (fun e => f e = false) (fun e => f e = false) m ->
  at_most f 0 m.
Proof.
  intros K s. specialize (K s I). destruct (m s) as [[o s'] t].
  destruct K as (_ & K & _). cbn [snd]. rewrite (count_none _ _ K). lia.
Qed.

End Counting.

Section CountingProgram.

Variable W : Type.
Variable env : Env W.
Variable incident_id : Z.
Variable hostname : string.
Variable days_later_timeout_length : Z.
Variable fuel : nat.

(** [f] picks calls of one or more of three kinds: the lookups of the
    incident, the requests of a session, the restarts of the sensor, with the
    weights [wi], [wq] and [wr]. *)
Variable f : event -> bool.
Variables wi wq wr : nat.
Hypothesis f_status : forall m, f (StatusMessage m) = false.
Hypothesis f_log : forall m, f (LogInfo m) = false.
Hypothesis f_sleep : forall n, f (Sleep n) = false.
Hypothesis f_select : forall q, f (Select q) = false.
Hypothesis f_list : forall a b, f (ListDirectory a b) = false.
Hypothesis f_getfile : forall a b, f (GetFile a b) = false.
Hypothesis f_close : forall a, f (Close a) = false.
Hypothesis f_post : forall u z n b, f (PostAttachment u z n b) = false.
Hypothesis f_result : forall r, f (FunctionResult r) = false.
Hypothesis f_incident : forall u, f (GetIncident u) = false \/ (1 <= wi)%nat.
Hypothesis f_request :
  forall a b, f (RequestSession a b) = false \/ (1 <= wq)%nat.
Hypothesis f_restart : forall a, f (RestartSensor a) = false \/ (1 <= wr)%nat.

Ltac none lemma :=
  apply at_most_none; apply lemma;
  try (intros; exact I); try (intros; assumption); auto.

Lemma availability_calls_none :
  at_most f 0 (availability env hostname days_later_timeout_length fuel).
Proof. none keeps_availability. Qed.

Lemma verify_incident_calls_once :
  at_most f wi (verify_incident env incident_id).
Proof.
  unfold verify_incident, try_except.
  apply (at_most_weaken W f (wi + 0)); [|lia].
  apply at_most_try_except_else.
  - apply at_most_call. apply f_incident.
  - intros e. destruct (message_of e) as [m|a]; [|apply at_most_raise].
    destruct (negb (m =? "")%string
              && PyStr.contains "not found" (PyStr.lower m))%bool;
      apply (at_most_bind W f 0 0);
      try (intros; apply at_most_return);
      apply (at_most_bind W f 0 0);
      try (intros; apply at_most_emit; left; apply f_log);
      apply at_most_emit; left; apply f_log.
  - intros x. apply at_most_ret.
Qed.

Lemma open_session_calls_once : at_most f wq (open_session env).
Proof.
  unfold open_session. apply at_most_get_bind. intros s.
  apply (at_most_weaken W f (0 + (wq + (0 + (0 + 0))))); [|lia].
  apply at_most_bind; [apply at_most_emit; left; apply f_status|].
  intros _. apply at_most_bind.
  - intros s0. unfold call_request_session.
    destruct (request_session env (sensor_id (sensor s)) (world s0))
      as [[x|e] w]; cbn [snd]; unfold count; cbn;
      match goal with
      | |- context [f ?e] =>
          destruct (f e) eqn:E; cbn;
          [destruct (f_request (sensor_id (sensor s)) (Some (session_id x)))
             as [F|F] || destruct (f_request (sensor_id (sensor s)) None)
             as [F|F]; [congruence | lia] | lia]
      end.
  - intros x. apply at_most_bind; [apply at_most_modify|].
    intros _. apply at_most_bind;
      [apply at_most_emit; left; apply f_status | intros; apply at_most_ret].
Qed.

Lemma attempt_calls :
  at_most f (wi + wq)
          (attempt env incident_id hostname days_later_timeout_length fuel).
Proof.
  unfold attempt, collect, prepare.
  apply (at_most_weaken W f ((0 + (wi + wq)) + (0 + 0) + 0)); [|lia].
  apply at_most_bind.
  - apply at_most_bind.
    + apply at_most_bind; [apply availability_calls_none|].
      intros _. apply at_most_bind; [apply verify_incident_calls_once|].
      intros _. apply open_session_calls_once.
    + intros x. apply at_most_bind; [none keeps_discover|].
      intros [|p files].
      * intros s. cbn. unfold count. cbn.
        rewrite f_status, f_result. cbn. lia.
      * none keeps_package.
  - intros zip. none keeps_upload.
Qed.

Lemma on_timeout_calls : at_most f wr (on_timeout env hostname).
Proof.
  unfold on_timeout, recover.
  apply (at_most_weaken W f (0 + (0 + (0 + (wr + (0 + 0)))))); [|lia].
  apply at_most_bind; [none keeps_note_timeout|].
  intros _. apply at_most_bind; [none keeps_close_session|].
  intros _. apply at_most_bind; [none keeps_refresh_sensor|].
  intros _. apply at_most_get_bind. intros s.
  apply at_most_bind; [apply at_most_call; apply f_restart|].
  intros _. apply at_most_bind; [none keeps_call_sleep|].
  intros _. none keeps_refresh_sensor.
Qed.

Lemma iteration_calls :
  at_most f (wi + wq + wr)
          (iteration env incident_id hostname days_later_timeout_length fuel).
Proof.
  unfold iteration. apply at_most_try_except_else.
  - apply attempt_calls.
  - intros [|m|m c].
    + apply (at_most_weaken W f (wr + 0)); [|lia].
      apply at_most_bind; [apply on_timeout_calls|].
      intros; apply at_most_ret.
    + apply (at_most_weaken W f (0 + (0 + 0))); [|lia].
      apply at_most_bind; [none keeps_on_error|].
      intros _. apply at_most_bind; [none keeps_finish|].
      intros; apply at_most_ret.
    + apply (at_most_weaken W f (0 + (0 + 0))); [|lia].
      apply at_most_bind; [none keeps_on_error|].
      intros _. apply at_most_bind; [none keeps_finish|].
      intros; apply at_most_ret.
  - intros _. apply (at_most_weaken W f (0 + (0 + 0))); [|lia].
    apply at_most_bind; [apply at_most_modify|].
    intros _. apply at_most_bind; [none keeps_finish|].
    intros; apply at_most_ret.
Qed.

(** The loop makes at most one iteration per timeout that is left. *)
Lemma retry_loop_calls budget :
  forall s : State W,
    (count f (snd (retry_loop env incident_id hostname
                              days_later_timeout_length fuel budget s))
     <= (wi + wq + wr) * Z.to_nat (MAX_TIMEOUTS + 1 - timeouts s))%nat.
Proof.
  induction budget as [|k IH]; intros s;
    destruct (Z.le_gt_cases (timeouts s) MAX_TIMEOUTS) as [Hle|Hgt].
  - cbn [retry_loop]. unfold bind, get. apply Z.leb_le in Hle.
    rewrite Hle. cbn. lia.
  - rewrite retry_loop_exit by exact Hgt. cbn. lia.
  - rewrite (retry_loop_S _ _ _ _ _ _ _ _ Hle).
    pose proof (iteration_calls s) as C.
    destruct (iteration env incident_id hostname days_later_timeout_length
                        fuel s) as [[o1 s1] t1] eqn:Hit.
    cbn [snd] in C.
    assert (B : (1 <= Z.to_nat (MAX_TIMEOUTS + 1 - timeouts s))%nat) by lia.
    destruct o1 as [[|]| | |]; cbn [snd]; try nia.
    apply iteration_continue in Hit.
    specialize (IH s1).
    destruct (retry_loop env incident_id hostname days_later_timeout_length
                         fuel k s1) as [[o2 s2] t2].
    cbn [snd] in *. rewrite count_app.
    replace (Z.to_nat (MAX_TIMEOUTS + 1 - timeouts s))
      with (S (Z.to_nat (MAX_TIMEOUTS + 1 - timeouts s1))) by lia.
    nia.
  - rewrite retry_loop_exit by exact Hgt. cbn. lia.
Qed.

End CountingProgram.

Section CountingMain.

Variable W : Type.
Variable env : Env W.
Variable f : event -> bool.
Variable weight : nat.
Hypothesis f_status : forall m, f (StatusMessage m) = false.
Hypothesis f_log : forall m, f (LogInfo m) = false.
Hypothesis f_sleep : forall n, f (Sleep n) = false.
Hypothesis f_select : forall q, f (Select q) = false.
Hypothesis f_list : forall a b, f (ListDirectory a b) = false.
Hypothesis f_getfile : forall a b, f (GetFile a b) = false.
Hypothesis f_close : forall a, f (Close a) = false.
Hypothesis f_post : forall u z n b, f (PostAttachment u z n b) = false.
Hypothesis f_result : forall r, f (FunctionResult r) = false.
Hypothesis f_error : f FunctionError = false.
Hypothesis f_loop :
  forall incident_id hostname days fuel budget (s : State W),
    (count f (snd (retry_loop env incident_id hostname days fuel budget s))
     <= weight * Z.to_nat (MAX_TIMEOUTS + 1 - timeouts s))%nat.

Lemma main_calls fuel incident_id hostname_arg w :
  (count f (snd (main env fuel incident_id hostname_arg w)) <= weight * 4)%nat.
Proof.
  unfold main. destruct (now env w) as [t w1].
  destruct (select env (query (normalize hostname_arg)) w1)
    as [[[|x l]|e] w2]; cbn [snd fst].
  - unfold count. cbn. rewrite f_select, f_status, f_result. cbn. lia.
  - unfold bind.
    pose proof (f_loop incident_id (normalize hostname_arg)
                  (t + timedelta_days DAYS_UNTIL_TIMEOUT) fuel retry_budget
                  (initial_state w2 x (normalize hostname_arg))) as C.
    destruct (retry_loop env incident_id (normalize hostname_arg)
                         (t + timedelta_days DAYS_UNTIL_TIMEOUT) fuel
                         retry_budget
                         (initial_state w2 x (normalize hostname_arg)))
      as [[o s] tr].
    cbn [snd] in C. unfold initial_state in C. cbn [timeouts] in C.
    change (Z.to_nat (MAX_TIMEOUTS + 1 - 0)) with 4%nat in C.
    destruct o as [[]|e| |]; unfold yield_result, bind, get, emit;
      cbn [snd fst app];
      rewrite count_cons_false by apply f_select;
      rewrite ?count_app;
      try (rewrite (count_cons_false f FunctionError) by apply f_error);
      try (rewrite (count_cons_false f (FunctionResult _))
            by apply f_result);
      change (count f []) with 0%nat; lia.
  - unfold count. cbn. rewrite f_select, f_error. cbn. lia.
Qed.

End CountingMain.

(** Whatever the world does, however often it times out and however long the
    sensor is polled, one invocation restarts the sensor at most four times,
    asks for a live-response session at most four times and looks the incident
    up at most four times ([MAX_TIMEOUTS + 1] rounds of the loop, one of each
    per round). *)
Theorem calls_are_bounded
        {W} (env : Env W) fuel incident_id hostname_arg w :
  let trace := snd (main env fuel incident_id hostname_arg w) in
  (count is_restart trace <= Z.to_nat (MAX_TIMEOUTS + 1))%nat
  /\ (count is_request trace <= Z.to_nat (MAX_TIMEOUTS + 1))%nat
  /\ (count is_incident trace <= Z.to_nat (MAX_TIMEOUTS + 1))%nat.
Proof.
  change (Z.to_nat (MAX_TIMEOUTS + 1)) with (1 * 4)%nat.
  cbv zeta. repeat split.
  - apply main_calls; try reflexivity.
    intros i h d n b s.
    exact (retry_loop_calls W env i h d n is_restart 0 0 1
             ltac:(reflexivity) ltac:(reflexivity) ltac:(reflexivity)
             ltac:(reflexivity) ltac:(reflexivity) ltac:(reflexivity)
             ltac:(reflexivity) ltac:(reflexivity) ltac:(reflexivity)
             ltac:(left; reflexivity) ltac:(left; reflexivity)
             ltac:(right; lia) b s).
  - apply main_calls; try reflexivity.
    intros i h d n b s.
    exact (retry_loop_calls W env i h d n is_request 0 1 0
             ltac:(reflexivity) ltac:(reflexivity) ltac:(reflexivity)
             ltac:(reflexivity) ltac:(reflexivity) ltac:(reflexivity)
             ltac:(reflexivity) ltac:(reflexivity) ltac:(reflexivity)
             ltac:(left; reflexivity) ltac:(right; lia)
             ltac:(left; reflexivity) b s).
  - apply main_calls; try reflexivity.
    intros i h d n b s.
    exact (retry_loop_calls W env i h d n is_incident 1 0 0
             ltac:(reflexivity) ltac:(reflexivity) ltac:(reflexivity)
             ltac:(reflexivity) ltac:(reflexivity) ltac:(reflexivity)
             ltac:(reflexivity) ltac:(reflexivity) ltac:(reflexivity)
             ltac:(right; lia) ltac:(left; reflexivity)
             ltac:(left; reflexivity) b s).
Qed.
